(** * Portfolio API: a shallow embedding of [backend/main.py]

    The service keeps [Project] records in one module-level dictionary
    [PROJECTS], keyed by generated identifiers, and exposes list / create /
    get / update / delete handlers over it.  This development embeds the
    dictionary, the three pydantic models with their field constraints, the
    handlers and the request layer in front of them, and proves the
    properties of the service's specification. *)

From Stdlib Require Import NArith ZArith Ascii String List Lia Bool.
Import ListNotations.

Local Open Scope string_scope.
Local Open Scope list_scope.

(** ** Python dictionaries

    A [dict] with string keys keeps its entries in insertion order and holds
    each key at most once.  It is modelled as an association list in which
    [d[k] = v] overwrites in place when [k] is present and appends otherwise,
    so that [list(d.values())] comes out in the order Python gives. *)

Module Dict.
Section ops.
Context {V : Type}.

Definition t : Type := list (string * V).

Definition empty : t := [].

(** [d.get(k)] *)
Fixpoint get (k : string) (d : t) : option V :=
  match d with
  | [] => None
  | (k', v) :: d' => if String.eqb k k' then Some v else get k d'
  end.

(** [k in d] *)
Definition mem (k : string) (d : t) : bool :=
  match get k d with Some _ => true | None => false end.

(** [d[k] = v] *)
Fixpoint set (k : string) (v : V) (d : t) : t :=
  match d with
  | [] => [(k, v)]
  | (k', v') :: d' =>
      if String.eqb k k' then (k', v) :: d' else (k', v') :: set k v d'
  end.

(** [del d[k]], called once [k] is known to be present: no entry under [k]
    is left, the others keep their order *)
Fixpoint del (k : string) (d : t) : t :=
  match d with
  | [] => []
  | (k', v') :: d' =>
      if String.eqb k k' then del k d' else (k', v') :: del k d'
  end.

(** [d.keys()], [d.values()] *)
Definition keys (d : t) : list string := map fst d.
Definition values (d : t) : list V := map snd d.

(** [d.update(other)] *)
Definition update (d other : t) : t :=
  fold_left (fun acc kv => set (fst kv) (snd kv) acc) other d.

(** [bool(d)] *)
Definition truthy (d : t) : bool :=
  match d with [] => false | _ :: _ => true end.

(** The entries stored under keys other than [k], in order (used to state
    what an operation on [k] leaves alone). *)
Definition others (k : string) (d : t) : t :=
  filter (fun kv => negb (String.eqb k (fst kv))) d.
End ops.
Arguments t : clear implicits.
End Dict.

(** ** Values that cross the model boundary

    Keyword arguments of a model constructor and the fields of a decoded JSON
    body are Python values.  Only the shapes the three models distinguish are
    kept: [None], a [str], a list of [str], and [VOther] for any value that
    neither a [str] field nor a [List[str]] field accepts (a nested object,
    say). *)

Inductive pyval : Type :=
| VNone
| VStr (s : string)
| VStrList (l : list string)
| VOther.

Definition kwargs : Type := Dict.t pyval.

(** What a handler can raise. *)
Inductive exn : Type :=
| HTTPException (status_code : Z) (detail : string)
| ValidationError.

Definition result (A : Type) : Type := exn + A.

(** ** Field validators

    [Field(..., min_length=a, max_length=b)] on a [str] field. *)

Definition str_field (min_length max_length : nat) (v : pyval) : option string :=
  match v with
  | VStr s =>
      if (min_length <=? String.length s)%nat && (String.length s <=? max_length)%nat
      then Some s else None
  | _ => None
  end.

(** A [str] field without constraints ([id: str]). *)
Definition plain_str_field (v : pyval) : option string :=
  match v with VStr s => Some s | _ => None end.

(** A [List[str]] field. *)
Definition str_list_field (v : pyval) : option (list string) :=
  match v with VStrList l => Some l | _ => None end.

(** [Optional[T]]: [None] is accepted as it is, anything else goes to [T]'s
    validator. *)
Definition optional_field {A} (f : pyval -> option A) (v : pyval) : option (option A) :=
  match v with
  | VNone => Some None
  | _ => match f v with Some a => Some (Some a) | None => None end
  end.

(** A required field ([Field(...)]): missing is an error. *)
Definition required {A} (f : pyval -> option A) (name : string) (kw : kwargs) : option A :=
  match Dict.get name kw with
  | Some v => f v
  | None => None
  end.

(** A field with a default: missing takes the default. *)
Definition with_default {A} (f : pyval -> option A) (name : string) (dflt : A)
    (kw : kwargs) : option A :=
  match Dict.get name kw with
  | Some v => f v
  | None => Some dflt
  end.

(** ** The models *)

(** [ProjectBase] / [ProjectCreate] *)
Record ProjectCreate : Type := mkProjectCreate {
  pc_title : string;
  pc_description : string;
  pc_tags : list string
}.

(** [ProjectUpdate]; [pu_fields_set] is pydantic's record of which fields the
    input named, the information [dict(exclude_unset=True)] reads. *)
Record ProjectUpdate : Type := mkProjectUpdate {
  pu_title : option string;
  pu_description : option string;
  pu_tags : option (list string);
  pu_fields_set : list string
}.

(** [Project] *)
Record Project : Type := mkProject {
  title : string;
  description : string;
  tags : list string;
  id : string
}.

Definition ProjectCreate_init (kw : kwargs) : result ProjectCreate :=
  match required (str_field 1 120) "title" kw,
        required (str_field 1 2000) "description" kw,
        with_default str_list_field "tags" [] kw with
  | Some t, Some d, Some g => inr (mkProjectCreate t d g)
  | _, _, _ => inl ValidationError
  end.

Definition ProjectUpdate_fields : list string := ["title"; "description"; "tags"].

Definition ProjectUpdate_init (kw : kwargs) : result ProjectUpdate :=
  match with_default (optional_field (str_field 1 120)) "title" None kw,
        with_default (optional_field (str_field 1 2000)) "description" None kw,
        with_default (optional_field str_list_field) "tags" None kw with
  | Some t, Some d, Some g =>
      inr (mkProjectUpdate t d g
             (filter (fun f => Dict.mem f kw) ProjectUpdate_fields))
  | _, _, _ => inl ValidationError
  end.

Definition Project_init (kw : kwargs) : result Project :=
  match required (str_field 1 120) "title" kw,
        required (str_field 1 2000) "description" kw,
        with_default str_list_field "tags" [] kw,
        required plain_str_field "id" kw with
  | Some t, Some d, Some g, Some i => inr (mkProject t d g i)
  | _, _, _, _ => inl ValidationError
  end.

(** [payload.dict()] on a [ProjectCreate] *)
Definition ProjectCreate_dict (p : ProjectCreate) : kwargs :=
  [("title", VStr (pc_title p));
   ("description", VStr (pc_description p));
   ("tags", VStrList (pc_tags p))].

(** [project.dict()] on a [Project] *)
Definition Project_dict (p : Project) : kwargs :=
  [("title", VStr (title p));
   ("description", VStr (description p));
   ("tags", VStrList (tags p));
   ("id", VStr (id p))].

Definition of_opt_str (o : option string) : pyval :=
  match o with Some s => VStr s | None => VNone end.

Definition of_opt_list (o : option (list string)) : pyval :=
  match o with Some l => VStrList l | None => VNone end.

(** [payload.dict(exclude_unset=True)] on a [ProjectUpdate] *)
Definition ProjectUpdate_dict_exclude_unset (p : ProjectUpdate) : kwargs :=
  filter (fun kv => existsb (String.eqb (fst kv)) (pu_fields_set p))
    [("title", of_opt_str (pu_title p));
     ("description", of_opt_str (pu_description p));
     ("tags", of_opt_list (pu_tags p))].

(** [v is not None] *)
Definition is_not_None (v : pyval) : bool :=
  match v with VNone => false | _ => true end.

(** ** Identifiers: [str(uuid.uuid4())]

    [uuid4] draws sixteen random bytes, reads them as a big-endian integer,
    forces the RFC 4122 variant and version 4 bits, and [str] prints the
    integer as 32 lowercase hex digits grouped 8-4-4-4-12.  The random bytes
    are an argument ([rnd], the integer they encode). *)

Definition UUID_int (rnd : N) (version : N) : N :=
  let int := (rnd mod 2 ^ 128)%N in
  let int := N.ldiff int (N.shiftl 0xc000 48) in
  let int := N.lor int (N.shiftl 0x8000 48) in
  let int := N.ldiff int (N.shiftl 0xf000 64) in
  N.lor int (N.shiftl version 76).

Definition hex_digit (n : N) : ascii :=
  match String.get (N.to_nat n) "0123456789abcdef" with
  | Some c => c
  | None => "0"%char
  end.

(** ['%032x' % n] for [n < 2^128] *)
Definition hex32 (n : N) : string :=
  string_of_list_ascii
    (map (fun i => hex_digit (N.land (N.shiftr n (4 * N.of_nat i)) 15))
       (rev (seq 0 32))).

Definition UUID_str (int : N) : string :=
  let hex := hex32 int in
  substring 0 8 hex ++ "-" ++ substring 8 4 hex ++ "-" ++ substring 12 4 hex
    ++ "-" ++ substring 16 4 hex ++ "-" ++ substring 20 12 hex.

Definition uuid4_str (rnd : N) : string := UUID_str (UUID_int rnd 4).

(** ** Handlers as computations over the global [PROJECTS]

    A handler reads and writes the module-level dictionary and either returns
    a value or raises; writes made before a raise stay. *)

Definition store : Type := Dict.t Project.

Definition handler (A : Type) : Type := store -> result A * store.

Definition ret {A} (a : A) : handler A := fun s => (inr a, s).

Definition raise {A} (e : exn) : handler A := fun s => (inl e, s).

Definition bind {A B} (m : handler A) (k : A -> handler B) : handler B :=
  fun s =>
    match m s with
    | (inr a, s') => k a s'
    | (inl e, s') => (inl e, s')
    end.

Definition lift {A} (r : result A) : handler A := fun s => (r, s).

Definition read : handler store := fun s => (inr s, s).

Definition modify (f : store -> store) : handler unit := fun s => (inr tt, f s).

Notation "'let*' x := m 'in' k" := (bind m (fun x => k))
  (at level 10, x name, m at level 100, k at level 200).

Definition not_found {A} : handler A :=
  raise (HTTPException 404 "Project not found").

(** The three records built in [seed_data]. *)
Definition seed_examples (r1 r2 r3 : N) : result (list Project) :=
  match
    Project_init
      [("id", VStr (uuid4_str r1));
       ("title", VStr "Midnight Dashboard");
       ("description",
         VStr "Clean analytics hub with high-contrast dark UI and buttery transitions.");
       ("tags", VStrList ["React"; "Framer Motion"; "A11y"])],
    Project_init
      [("id", VStr (uuid4_str r2));
       ("title", VStr "Aurora Docs");
       ("description",
         VStr "Documentation site with focus-first typography and instant search.");
       ("tags", VStrList ["Content"; "Search"; "Dark Mode"])],
    Project_init
      [("id", VStr (uuid4_str r3));
       ("title", VStr "Shadow Commerce");
       ("description",
         VStr "Performance-first storefront with snappy filters and crisp accents.");
       ("tags", VStrList ["Performance"; "UI/UX"; "E-commerce"])]
  with
  | inr p1, inr p2, inr p3 => inr [p1; p2; p3]
  | inl e, _, _ | _, inl e, _ | _, _, inl e => inl e
  end.

Definition seed_data (r1 r2 r3 : N) : handler unit :=
  let* PROJECTS := read in
  if Dict.truthy PROJECTS then ret tt
  else
    let* examples := lift (seed_examples r1 r2 r3) in
    modify (fun PROJECTS =>
              fold_left (fun acc p => Dict.set (id p) p acc) examples PROJECTS).

Definition read_root : handler string := ret "Portfolio API running".

Definition hello : handler string := ret "Hello from the backend API!".

Definition list_projects : handler (list Project) :=
  let* PROJECTS := read in
  ret (Dict.values PROJECTS).

Definition create_project (rnd : N) (payload : ProjectCreate) : handler Project :=
  let pid := uuid4_str rnd in
  let* project := lift (Project_init (("id", VStr pid) :: ProjectCreate_dict payload)) in
  let* _ := modify (Dict.set pid project) in
  ret project.

Definition get_project (project_id : string) : handler Project :=
  let* PROJECTS := read in
  match Dict.get project_id PROJECTS with
  | None => not_found
  | Some project => ret project
  end.

Definition update_project (project_id : string) (payload : ProjectUpdate)
    : handler Project :=
  let* PROJECTS := read in
  match Dict.get project_id PROJECTS with
  | None => not_found
  | Some project =>
      let data := Project_dict project in
      let updates := ProjectUpdate_dict_exclude_unset payload in
      let data :=
        Dict.update data (filter (fun kv => is_not_None (snd kv)) updates) in
      let* updated := lift (Project_init data) in
      let* _ := modify (Dict.set project_id updated) in
      ret updated
  end.

Definition delete_project (project_id : string) : handler unit :=
  let* PROJECTS := read in
  if negb (Dict.mem project_id PROJECTS) then not_found
  else
    let* _ := modify (Dict.del project_id) in
    ret tt.

(** ** The request layer

    What the framework does around a handler: decode and validate the body
    against the handler's declared payload model (failure is answered 422
    before the handler runs), call the handler, and turn its outcome into a
    response: the route's status code on return, the exception's own code
    and detail for an [HTTPException], 500 for anything else. *)

Inductive content : Type :=
| CMessage (message : string)
| CProject (p : Project)
| CProjects (l : list Project)
| CDetail (detail : string)
| CValidationErrors
| CServerError
| CEmpty.

Record response : Type := mkResponse {
  status : Z;
  body : content
}.

Definition respond {A} (status_code : Z) (render : A -> content)
    (h : handler A) (s : store) : response * store :=
  match h s with
  | (inr a, s') => (mkResponse status_code (render a), s')
  | (inl (HTTPException code detail), s') => (mkResponse code (CDetail detail), s')
  | (inl ValidationError, s') => (mkResponse 500 CServerError, s')
  end.

Definition unprocessable (s : store) : response * store :=
  (mkResponse 422 CValidationErrors, s).

Inductive request : Type :=
| GET_root
| GET_hello
| GET_projects
| POST_projects (rnd : N) (json : kwargs)
| GET_project (project_id : string)
| PUT_project (project_id : string) (json : kwargs)
| PATCH_project (project_id : string) (json : kwargs)
| DELETE_project (project_id : string).

Definition serve (req : request) : store -> response * store :=
  match req with
  | GET_root => respond 200 CMessage read_root
  | GET_hello => respond 200 CMessage hello
  | GET_projects => respond 200 CProjects list_projects
  | POST_projects rnd json =>
      match ProjectCreate_init json with
      | inr payload => respond 201 CProject (create_project rnd payload)
      | inl _ => unprocessable
      end
  | GET_project project_id => respond 200 CProject (get_project project_id)
  | PUT_project project_id json | PATCH_project project_id json =>
      match ProjectUpdate_init json with
      | inr payload => respond 200 CProject (update_project project_id payload)
      | inl _ => unprocessable
      end
  | DELETE_project project_id =>
      respond 204 (fun _ => CEmpty) (delete_project project_id)
  end.

(** The states the process can be in: the module is loaded ([PROJECTS = {}]
    followed by [seed_data()]), then requests are served.  Calling
    [seed_data] again, or a mutating handler directly with a payload object
    of its declared type, is allowed as well. *)
Inductive reachable : store -> Prop :=
| reach_startup r1 r2 r3 :
    reachable (snd (seed_data r1 r2 r3 Dict.empty))
| reach_serve s req :
    reachable s -> reachable (snd (serve req s))
| reach_seed s r1 r2 r3 :
    reachable s -> reachable (snd (seed_data r1 r2 r3 s))
| reach_create s rnd payload :
    reachable s -> reachable (snd (create_project rnd payload s))
| reach_update s project_id payload :
    reachable s -> reachable (snd (update_project project_id payload s))
| reach_delete s project_id :
    reachable s -> reachable (snd (delete_project project_id s)).

(** The store once the module is loaded. *)
Definition startup (r1 r2 r3 : N) : store := snd (seed_data r1 r2 r3 Dict.empty).

(** The field bounds of [ProjectBase]. *)
Definition title_ok (s : string) : Prop :=
  (1 <= String.length s <= 120)%nat.

Definition description_ok (s : string) : Prop :=
  (1 <= String.length s <= 2000)%nat.

Definition Project_ok (p : Project) : Prop :=
  title_ok (title p) /\ description_ok (description p).

(** The three seed records, as functions of their generated identifiers. *)
Definition seed_record_1 (i : string) : Project :=
  mkProject "Midnight Dashboard"
    "Clean analytics hub with high-contrast dark UI and buttery transitions."
    ["React"; "Framer Motion"; "A11y"] i.

Definition seed_record_2 (i : string) : Project :=
  mkProject "Aurora Docs"
    "Documentation site with focus-first typography and instant search."
    ["Content"; "Search"; "Dark Mode"] i.

Definition seed_record_3 (i : string) : Project :=
  mkProject "Shadow Commerce"
    "Performance-first storefront with snappy filters and crisp accents."
    ["Performance"; "UI/UX"; "E-commerce"] i.

(** The store invariant: keys are held once, every record is stored under its
    own [id], and every record meets the field bounds. *)
Definition entry_ok (kv : string * Project) : Prop :=
  id (snd kv) = fst kv /\ Project_ok (snd kv).

Definition store_inv (s : store) : Prop :=
  NoDup (Dict.keys s) /\ Forall entry_ok s.

(** What [update_project] merges: a field named by the payload with a value
    other than [None] replaces the stored one. *)
Definition chosen {A} (name : string) (payload : ProjectUpdate)
    (new : option A) (old : A) : A :=
  if existsb (String.eqb name) (pu_fields_set payload)
  then match new with Some a => a | None => old end
  else old.

Definition merged (project : Project) (payload : ProjectUpdate) : Project :=
  mkProject
    (chosen "title" payload (pu_title payload) (title project))
    (chosen "description" payload (pu_description payload) (description project))
    (chosen "tags" payload (pu_tags payload) (tags project))
    (id project).

(** The validation rules for a creation body, in the specification's words:
    a title of 1 to 120 characters, a description of 1 to 2000 characters,
    and tags, when given, a sequence of strings. *)
Definition create_body_valid (json : kwargs) : Prop :=
  (exists t, Dict.get "title" json = Some (VStr t) /\ title_ok t) /\
  (exists d, Dict.get "description" json = Some (VStr d) /\ description_ok d) /\
  (Dict.get "tags" json = None \/ exists g, Dict.get "tags" json = Some (VStrList g)).

(** How the value [new] of a field after an update with body [json] relates
    to the stored value [old]: kept when the body omits the field or gives
    null, replaced when the body gives a value. *)
Definition field_merged {A} (inj : A -> pyval) (name : string) (json : kwargs)
    (old new : A) : Prop :=
  (Dict.get name json = None -> new = old) /\
  (Dict.get name json = Some VNone -> new = old) /\
  (forall a, Dict.get name json = Some (inj a) -> new = a).

(** [s'] differs from [s] at most in the entry for [k]: the other entries are
    the same, in the same order, and every other key reads the same. *)
Definition same_elsewhere (k : string) (s s' : store) : Prop :=
  Dict.others k s' = Dict.others k s /\
  forall k', k' <> k -> Dict.get k' s' = Dict.get k' s.

(** The validation rules of [ProjectUpdate] for a body: each of the three
    fields may be omitted; when present it is null, or a value within the
    field's rules. *)
Definition update_body_valid (json : kwargs) : Prop :=
  (forall v, Dict.get "title" json = Some v ->
     v = VNone \/ exists t, v = VStr t /\ title_ok t) /\
  (forall v, Dict.get "description" json = Some v ->
     v = VNone \/ exists d, v = VStr d /\ description_ok d) /\
  (forall v, Dict.get "tags" json = Some v ->
     v = VNone \/ exists g, v = VStrList g).

(** A key that [uuid4] produced. *)
Definition generated_key (kv : string * Project) : Prop :=
  exists rnd, fst kv = uuid4_str rnd.

(** * Proofs *)

(** ** Dictionary lemmas *)

Section DictFacts.
Context {V : Type}.
Implicit Types (k : string) (v : V) (d : Dict.t V).

Lemma get_set_eq k v d : Dict.get k (Dict.set k v d) = Some v.
Proof.
  induction d as [|[k' v'] d IH]; simpl.
  - now rewrite String.eqb_refl.
  - destruct (String.eqb k k') eqn:E; simpl; rewrite E; auto.
Qed.

Lemma get_set_ne k k' v d :
  k <> k' -> Dict.get k' (Dict.set k v d) = Dict.get k' d.
Proof.
  intros Hne. induction d as [|[k0 v0] d IH]; simpl.
  - destruct (String.eqb k' k) eqn:E; auto.
    apply String.eqb_eq in E. congruence.
  - destruct (String.eqb k k0) eqn:E; simpl.
    + apply String.eqb_eq in E. subst k0.
      destruct (String.eqb k' k) eqn:E'; auto.
      apply String.eqb_eq in E'. congruence.
    + now rewrite IH.
Qed.

Lemma get_del_eq k d : Dict.get k (Dict.del k d) = None.
Proof.
  induction d as [|[k' v'] d IH]; simpl; auto.
  destruct (String.eqb k k') eqn:E; simpl; auto. now rewrite E.
Qed.

Lemma get_del_ne k k' d :
  k <> k' -> Dict.get k' (Dict.del k d) = Dict.get k' d.
Proof.
  intros Hne. induction d as [|[k0 v0] d IH]; simpl; auto.
  destruct (String.eqb k k0) eqn:E; simpl.
  - apply String.eqb_eq in E. subst k0.
    destruct (String.eqb k' k) eqn:E'; auto.
    apply String.eqb_eq in E'. congruence.
  - now rewrite IH.
Qed.

Lemma get_In k v d : Dict.get k d = Some v -> In (k, v) d.
Proof.
  induction d as [|[k' v'] d IH]; simpl; [discriminate|].
  destruct (String.eqb k k') eqn:E.
  - apply String.eqb_eq in E. intros [= ->]. left. now subst.
  - auto.
Qed.

Lemma get_None_keys k d : Dict.get k d = None -> ~ In k (Dict.keys d).
Proof.
  induction d as [|[k' v'] d IH]; simpl; [tauto|].
  destruct (String.eqb k k') eqn:E; [discriminate|].
  apply String.eqb_neq in E. intros H [Hk|Hk]; [congruence|]. now apply IH.
Qed.

Lemma In_get k v d : NoDup (Dict.keys d) -> In (k, v) d -> Dict.get k d = Some v.
Proof.
  induction d as [|[k' v'] d IH]; simpl; [tauto|].
  intros Hnd [H|H]; inversion Hnd as [|? ? Hnotin Hnd']; subst.
  - injection H as -> ->. now rewrite String.eqb_refl.
  - destruct (String.eqb k k') eqn:E; auto.
    apply String.eqb_eq in E. subst k'. exfalso. apply Hnotin.
    unfold Dict.keys. change k with (fst (k, v)). now apply in_map.
Qed.

Lemma In_set k v k' v' d :
  In (k', v') (Dict.set k v d) -> (k' = k /\ v' = v) \/ In (k', v') d.
Proof.
  induction d as [|[k0 v0] d IH]; simpl.
  - intros [[= <- <-]|[]]. auto.
  - destruct (String.eqb k k0) eqn:E; simpl.
    + apply String.eqb_eq in E. subst k0. intros [[= <- <-]|H]; auto.
    + intros [H|H]; auto. destruct (IH H); auto.
Qed.

Lemma In_del k k' v' d :
  In (k', v') (Dict.del k d) -> k' <> k /\ In (k', v') d.
Proof.
  induction d as [|[k0 v0] d IH]; simpl; [tauto|].
  destruct (String.eqb k k0) eqn:E; simpl.
  - intros H. destruct (IH H). auto.
  - apply String.eqb_neq in E. intros [[= <- <-]|H]; [auto|].
    destruct (IH H). auto.
Qed.

Lemma keys_set k v d :
  Dict.keys (Dict.set k v d) =
  if Dict.mem k d then Dict.keys d else Dict.keys d ++ [k].
Proof.
  unfold Dict.mem. induction d as [|[k0 v0] d IH]; simpl; auto.
  destruct (String.eqb k k0) eqn:E; simpl; auto.
  rewrite IH. now destruct (Dict.get k d).
Qed.

Lemma NoDup_keys_set k v d :
  NoDup (Dict.keys d) -> NoDup (Dict.keys (Dict.set k v d)).
Proof.
  intros Hnd. rewrite keys_set. unfold Dict.mem.
  destruct (Dict.get k d) eqn:E; auto.
  apply get_None_keys in E.
  apply NoDup_rev in Hnd. rewrite <- (rev_involutive (_ ++ _)).
  apply NoDup_rev. rewrite rev_app_distr. simpl. constructor; auto.
  now rewrite <- in_rev.
Qed.

Lemma NoDup_keys_del k d :
  NoDup (Dict.keys d) -> NoDup (Dict.keys (Dict.del k d)).
Proof.
  induction d as [|[k0 v0] d IH]; simpl; auto.
  intros Hnd. inversion Hnd as [|? ? Hnotin Hnd']; subst.
  destruct (String.eqb k k0); simpl; auto.
  constructor; auto. intros Hin. apply Hnotin.
  unfold Dict.keys in *. apply in_map_iff in Hin as [[k1 v1] [Hk Hin]].
  simpl in Hk. subst k1. apply In_del in Hin as [_ Hin].
  change k0 with (fst (k0, v1)). now apply in_map.
Qed.

Lemma Forall_set (P : string * V -> Prop) k v d :
  Forall P d -> P (k, v) -> Forall P (Dict.set k v d).
Proof.
  rewrite !Forall_forall. intros Hd Hkv [k' v'] Hin.
  apply In_set in Hin as [[-> ->]|Hin]; auto.
Qed.

Lemma Forall_del (P : string * V -> Prop) k d :
  Forall P d -> Forall P (Dict.del k d).
Proof.
  rewrite !Forall_forall. intros Hd [k' v'] Hin.
  apply In_del in Hin as [_ Hin]. auto.
Qed.

Lemma others_set k v d : Dict.others k (Dict.set k v d) = Dict.others k d.
Proof.
  unfold Dict.others. induction d as [|[k0 v0] d IH]; simpl.
  - now rewrite String.eqb_refl.
  - destruct (String.eqb k k0) eqn:E; simpl; rewrite E; simpl; auto.
    now rewrite IH.
Qed.

Lemma others_del k d : Dict.others k (Dict.del k d) = Dict.others k d.
Proof.
  unfold Dict.others. induction d as [|[k0 v0] d IH]; simpl; auto.
  destruct (String.eqb k k0) eqn:E; simpl; auto.
  rewrite E. simpl. now rewrite IH.
Qed.

End DictFacts.

(** ** The models' constructors *)

Lemma str_field_Some a b v s :
  str_field a b v = Some s -> v = VStr s /\ (a <= String.length s <= b)%nat.
Proof.
  destruct v as [|s'| |]; simpl; try discriminate.
  destruct (_ && _) eqn:E; [|discriminate]. intros [= ->].
  apply andb_true_iff in E as [H1 H2].
  apply Nat.leb_le in H1, H2. auto.
Qed.

Lemma str_field_VStr a b s :
  (a <= String.length s <= b)%nat -> str_field a b (VStr s) = Some s.
Proof.
  intros [H1 H2]. simpl.
  apply Nat.leb_le in H1, H2. now rewrite H1, H2.
Qed.

Lemma Project_init_Project_dict p :
  Project_ok p -> Project_init (Project_dict p) = inr p.
Proof.
  intros [Ht Hd]. destruct p as [t d g i].
  unfold Project_init, Project_dict, required, with_default.
  cbn [Dict.get String.eqb Ascii.eqb Bool.eqb title description tags id] in *.
  now rewrite (str_field_VStr _ _ _ Ht), (str_field_VStr _ _ _ Hd).
Qed.

Lemma Project_init_inr kw p :
  Project_init kw = inr p ->
  Project_ok p /\
  Dict.get "title" kw = Some (VStr (title p)) /\
  Dict.get "description" kw = Some (VStr (description p)) /\
  Dict.get "id" kw = Some (VStr (id p)) /\
  (Dict.get "tags" kw = Some (VStrList (tags p)) \/
   Dict.get "tags" kw = None /\ tags p = []).
Proof.
  unfold Project_init, required, with_default, Project_ok, title_ok, description_ok.
  destruct (Dict.get "title" kw) as [vt|]; [|discriminate].
  destruct (str_field 1 120 vt) as [t|] eqn:Et; [|discriminate].
  destruct (Dict.get "description" kw) as [vd|];
    [|destruct (Dict.get "tags" kw) as [vg|]; [destruct (str_list_field vg)|];
      discriminate].
  destruct (str_field 1 2000 vd) as [d|] eqn:Ed;
    [|destruct (Dict.get "tags" kw) as [vg|]; [destruct (str_list_field vg)|];
      discriminate].
  apply str_field_Some in Et as [-> Ht], Ed as [-> Hd].
  destruct (Dict.get "tags" kw) as [vg|].
  - destruct vg as [| |g|]; simpl; try discriminate.
    destruct (Dict.get "id" kw) as [[|i| |]|]; simpl; try discriminate.
    intros [= <-]. simpl. auto 10.
  - destruct (Dict.get "id" kw) as [[|i| |]|]; simpl; try discriminate.
    intros [= <-]. simpl. auto 10.
Qed.

Lemma Project_init_create rnd payload :
  title_ok (pc_title payload) -> description_ok (pc_description payload) ->
  Project_init (("id", VStr (uuid4_str rnd)) :: ProjectCreate_dict payload) =
  inr (mkProject (pc_title payload) (pc_description payload) (pc_tags payload)
         (uuid4_str rnd)).
Proof.
  intros Ht Hd. unfold Project_init, ProjectCreate_dict, required, with_default.
  cbn [Dict.get String.eqb Ascii.eqb Bool.eqb].
  now rewrite (str_field_VStr _ _ _ Ht), (str_field_VStr _ _ _ Hd).
Qed.

Lemma ProjectCreate_init_inr json payload :
  ProjectCreate_init json = inr payload ->
  title_ok (pc_title payload) /\ description_ok (pc_description payload) /\
  Dict.get "title" json = Some (VStr (pc_title payload)) /\
  Dict.get "description" json = Some (VStr (pc_description payload)) /\
  (Dict.get "tags" json = Some (VStrList (pc_tags payload)) \/
   Dict.get "tags" json = None /\ pc_tags payload = []).
Proof.
  unfold ProjectCreate_init, required, with_default, title_ok, description_ok.
  destruct (Dict.get "title" json) as [vt|]; [|discriminate].
  destruct (str_field 1 120 vt) as [t|] eqn:Et; [|discriminate].
  destruct (Dict.get "description" json) as [vd|]; [|discriminate].
  destruct (str_field 1 2000 vd) as [d|] eqn:Ed; [|discriminate].
  apply str_field_Some in Et as [-> Ht], Ed as [-> Hd].
  destruct (Dict.get "tags" json) as [vg|].
  - destruct vg as [| |g|]; simpl; try discriminate.
    intros [= <-]. simpl. auto 10.
  - intros [= <-]. simpl. auto 10.
Qed.

Lemma ProjectUpdate_init_inr json payload p :
  ProjectUpdate_init json = inr payload ->
  (forall t, Dict.get "title" json = Some (VStr t) -> title_ok t) /\
  (forall d, Dict.get "description" json = Some (VStr d) -> description_ok d) /\
  title (merged p payload) =
    match Dict.get "title" json with Some (VStr t) => t | _ => title p end /\
  description (merged p payload) =
    match Dict.get "description" json with Some (VStr d) => d | _ => description p end /\
  tags (merged p payload) =
    match Dict.get "tags" json with Some (VStrList g) => g | _ => tags p end.
Proof.
  unfold ProjectUpdate_init, with_default, optional_field, merged, chosen,
    ProjectUpdate_fields, Dict.mem.
  cbn [filter].
  destruct (Dict.get "title" json) as [[|t| |]|];
    cbn [str_list_field]; try discriminate;
  destruct (Dict.get "description" json) as [[|d| |]|];
    cbn [str_list_field]; try discriminate;
  destruct (Dict.get "tags" json) as [[| |g|]|];
    cbn [str_list_field]; try discriminate.
  all: try (destruct (str_field 1 120 (VStr t)) as [t'|] eqn:Et; [|discriminate];
            apply str_field_Some in Et as [[= <-] Et]).
  all: try (destruct (str_field 1 2000 (VStr d)) as [d'|] eqn:Ed; [|discriminate];
            apply str_field_Some in Ed as [[= <-] Ed]).
  all: intros [= <-]; cbn; repeat split; try reflexivity.
  all: try (intros; discriminate).
  all: match goal with H : Some _ = Some _ |- _ => injection H as <- end; lia.
Qed.

(** The keyword dictionary [data] that [update_project] hands to the
    [Project] constructor. *)
Lemma update_data project payload :
  Dict.update (Project_dict project)
    (filter (fun kv => is_not_None (snd kv))
       (ProjectUpdate_dict_exclude_unset payload)) =
  Project_dict (merged project payload).
Proof.
  destruct payload as [[t|] [d|] [g|] fs];
    unfold merged, chosen, ProjectUpdate_dict_exclude_unset, Project_dict;
    cbn [pu_title pu_description pu_tags pu_fields_set filter fst snd
         of_opt_str of_opt_list title description tags id];
    destruct (existsb (String.eqb "title") fs),
             (existsb (String.eqb "description") fs),
             (existsb (String.eqb "tags") fs);
    reflexivity.
Qed.

(** ** The handlers, equation by equation *)

Lemma seed_examples_ok r1 r2 r3 :
  seed_examples r1 r2 r3 =
  inr [seed_record_1 (uuid4_str r1); seed_record_2 (uuid4_str r2);
       seed_record_3 (uuid4_str r3)].
Proof. reflexivity. Qed.

Lemma seed_data_nonempty r1 r2 r3 s :
  s <> [] -> seed_data r1 r2 r3 s = (inr tt, s).
Proof. destruct s; [congruence|reflexivity]. Qed.

Lemma seed_data_empty r1 r2 r3 :
  seed_data r1 r2 r3 Dict.empty =
  (inr tt,
   Dict.set (uuid4_str r3) (seed_record_3 (uuid4_str r3))
     (Dict.set (uuid4_str r2) (seed_record_2 (uuid4_str r2))
        [(uuid4_str r1, seed_record_1 (uuid4_str r1))])).
Proof. reflexivity. Qed.

Lemma uuid4_str_length rnd : String.length (uuid4_str rnd) = 36%nat.
Proof. reflexivity. Qed.

Lemma uuid4_str_nonempty rnd : uuid4_str rnd <> "".
Proof.
  intros H. pose proof (uuid4_str_length rnd) as L. rewrite H in L. discriminate.
Qed.

Lemma create_project_valid rnd payload s :
  title_ok (pc_title payload) -> description_ok (pc_description payload) ->
  create_project rnd payload s =
  let p := mkProject (pc_title payload) (pc_description payload)
             (pc_tags payload) (uuid4_str rnd) in
  (inr p, Dict.set (uuid4_str rnd) p s).
Proof.
  intros Ht Hd. unfold create_project, bind, lift, modify, ret.
  now rewrite Project_init_create.
Qed.

Lemma get_project_found pid p s :
  Dict.get pid s = Some p -> get_project pid s = (inr p, s).
Proof. intros H. unfold get_project, bind, read. simpl. now rewrite H. Qed.

Lemma get_project_missing pid s :
  Dict.get pid s = None ->
  get_project pid s = (inl (HTTPException 404 "Project not found"), s).
Proof. intros H. unfold get_project, bind, read. simpl. now rewrite H. Qed.

Lemma update_project_missing pid payload s :
  Dict.get pid s = None ->
  update_project pid payload s =
  (inl (HTTPException 404 "Project not found"), s).
Proof. intros H. unfold update_project, bind, read. simpl. now rewrite H. Qed.

Lemma update_project_found pid payload project s :
  Dict.get pid s = Some project ->
  update_project pid payload s =
  match Project_init (Project_dict (merged project payload)) with
  | inr updated => (inr updated, Dict.set pid updated s)
  | inl e => (inl e, s)
  end.
Proof.
  intros H. unfold update_project, bind, read, lift, modify, ret. simpl.
  rewrite H, update_data.
  now destruct (Project_init _).
Qed.

Lemma delete_project_missing pid s :
  Dict.get pid s = None ->
  delete_project pid s = (inl (HTTPException 404 "Project not found"), s).
Proof.
  intros H. unfold delete_project, bind, read, Dict.mem. simpl. now rewrite H.
Qed.

Lemma delete_project_found pid p s :
  Dict.get pid s = Some p -> delete_project pid s = (inr tt, Dict.del pid s).
Proof.
  intros H. unfold delete_project, bind, read, Dict.mem. simpl. now rewrite H.
Qed.

Lemma snd_respond {A} code (render : A -> content) (h : handler A) s :
  snd (respond code render h s) = snd (h s).
Proof.
  unfold respond. destruct (h s) as [[[c d|]|a] s']; reflexivity.
Qed.

(** ** The store invariant *)

Lemma store_inv_set k p s :
  store_inv s -> id p = k -> Project_ok p -> store_inv (Dict.set k p s).
Proof.
  intros [Hnd Hall] Hid Hok. split.
  - now apply NoDup_keys_set.
  - apply Forall_set; auto. now split.
Qed.

Lemma store_inv_del k s : store_inv s -> store_inv (Dict.del k s).
Proof.
  intros [Hnd Hall]. split; [now apply NoDup_keys_del|now apply Forall_del].
Qed.

Lemma store_inv_get k p s :
  store_inv s -> Dict.get k s = Some p -> id p = k /\ Project_ok p.
Proof.
  intros [_ Hall] Hget. apply get_In in Hget.
  rewrite Forall_forall in Hall. exact (Hall _ Hget).
Qed.

Lemma seed_record_1_ok i : Project_ok (seed_record_1 i).
Proof. unfold Project_ok, title_ok, description_ok. simpl. lia. Qed.

Lemma seed_record_2_ok i : Project_ok (seed_record_2 i).
Proof. unfold Project_ok, title_ok, description_ok. simpl. lia. Qed.

Lemma seed_record_3_ok i : Project_ok (seed_record_3 i).
Proof. unfold Project_ok, title_ok, description_ok. simpl. lia. Qed.

Lemma store_inv_empty : store_inv Dict.empty.
Proof. split; constructor. Qed.

Lemma seed_data_inv r1 r2 r3 s :
  store_inv s -> store_inv (snd (seed_data r1 r2 r3 s)).
Proof.
  intros Hs. destruct s as [|e s].
  - rewrite seed_data_empty. cbn [snd].
    repeat apply store_inv_set;
      auto using seed_record_2_ok, seed_record_3_ok.
    change [(uuid4_str r1, seed_record_1 (uuid4_str r1))]
      with (Dict.set (uuid4_str r1) (seed_record_1 (uuid4_str r1)) Dict.empty).
    apply store_inv_set; auto using seed_record_1_ok, store_inv_empty.
  - now rewrite seed_data_nonempty.
Qed.

Lemma create_project_inv rnd payload s :
  store_inv s -> store_inv (snd (create_project rnd payload s)).
Proof.
  intros Hs. unfold create_project, bind, lift, modify, ret.
  destruct (Project_init _) as [e|p] eqn:E; [exact Hs|]. cbn [snd].
  apply Project_init_inr in E as (Hok & _ & _ & Hid & _).
  cbn [Dict.get String.eqb Ascii.eqb Bool.eqb] in Hid. injection Hid as Hid.
  now apply store_inv_set.
Qed.

Lemma update_project_inv pid payload s :
  store_inv s -> store_inv (snd (update_project pid payload s)).
Proof.
  intros Hs. destruct (Dict.get pid s) as [project|] eqn:G.
  - rewrite (update_project_found _ _ _ _ G).
    destruct (Project_init _) as [e|u] eqn:E; [exact Hs|]. cbn [snd].
    apply Project_init_inr in E as (Hok & _ & _ & Hid & _).
    cbn [Dict.get String.eqb Ascii.eqb Bool.eqb merged Project_dict id] in Hid.
    injection Hid as Hid.
    destruct (store_inv_get _ _ _ Hs G) as [Hk _].
    apply store_inv_set; auto. congruence.
  - now rewrite update_project_missing.
Qed.

Lemma delete_project_inv pid s :
  store_inv s -> store_inv (snd (delete_project pid s)).
Proof.
  intros Hs. destruct (Dict.get pid s) as [p|] eqn:G.
  - rewrite (delete_project_found _ _ _ G). now apply store_inv_del.
  - now rewrite delete_project_missing.
Qed.

Lemma serve_inv req s : store_inv s -> store_inv (snd (serve req s)).
Proof.
  intros Hs. destruct req as [| | |rnd json|pid|pid json|pid json|pid];
    cbn [serve];
    try destruct (ProjectCreate_init json);
    try destruct (ProjectUpdate_init json);
    try exact Hs; rewrite snd_respond;
    auto using create_project_inv, update_project_inv, delete_project_inv.
  destruct (Dict.get pid s) eqn:G.
  - now rewrite (get_project_found _ _ _ G).
  - now rewrite get_project_missing.
Qed.

Lemma reachable_inv s : reachable s -> store_inv s.
Proof.
  induction 1 as [r1 r2 r3|s req _ IH|s r1 r2 r3 _ IH|s rnd payload _ IH
                 |s pid payload _ IH|s pid _ IH].
  - apply seed_data_inv, store_inv_empty.
  - now apply serve_inv.
  - now apply seed_data_inv.
  - now apply create_project_inv.
  - now apply update_project_inv.
  - now apply delete_project_inv.
Qed.

(** * The specification's properties *)

(** ** Create, then get *)

(** C1. A creation body that passes [ProjectCreate]'s validation is inserted
    by [create_project] and answered 201 with the new record; reading the
    returned id back at once gives that same record, whose title, description
    and tags are the payload's (the body's, with no tags when the body omits
    them) and whose id is the generated identifier, a non-empty string. *)
Theorem create_then_get (s : store) (rnd : N) (json : kwargs) (payload : ProjectCreate) :
  ProjectCreate_init json = inr payload ->
  let p := mkProject (pc_title payload) (pc_description payload)
             (pc_tags payload) (uuid4_str rnd) in
  let s' := Dict.set (id p) p s in
  create_project rnd payload s = (inr p, s') /\
  serve (POST_projects rnd json) s = (mkResponse 201 (CProject p), s') /\
  get_project (id p) s' = (inr p, s') /\
  serve (GET_project (id p)) s' = (mkResponse 200 (CProject p), s') /\
  Dict.get "title" json = Some (VStr (title p)) /\
  Dict.get "description" json = Some (VStr (description p)) /\
  (Dict.get "tags" json = Some (VStrList (tags p)) \/
   Dict.get "tags" json = None /\ tags p = []) /\
  id p = uuid4_str rnd /\ id p <> "" /\ String.length (id p) = 36%nat.
Proof.
  intros Hv p s'.
  destruct (ProjectCreate_init_inr _ _ Hv) as (Ht & Hd & Gt & Gd & Gg).
  assert (Hc : create_project rnd payload s = (inr p, s'))
    by now apply create_project_valid.
  assert (Hg : get_project (id p) s' = (inr p, s'))
    by (apply get_project_found, get_set_eq).
  repeat split; auto.
  - cbn [serve]. rewrite Hv. unfold respond. now rewrite Hc.
  - cbn [serve]. unfold respond. now rewrite Hg.
  - apply uuid4_str_nonempty.
Qed.

Lemma create_then_get_witness :
  serve (POST_projects 7
           [("title", VStr "X"); ("description", VStr "Y"); ("tags", VStrList ["a"])])
    Dict.empty =
  (mkResponse 201
     (CProject (mkProject "X" "Y" ["a"] "00000000-0000-4000-8000-000000000007")),
   [("00000000-0000-4000-8000-000000000007",
     mkProject "X" "Y" ["a"] "00000000-0000-4000-8000-000000000007")]).
Proof.
  exact (proj1 (proj2
    (create_then_get Dict.empty 7
       [("title", VStr "X"); ("description", VStr "Y"); ("tags", VStrList ["a"])]
       (mkProjectCreate "X" "Y" ["a"]) eq_refl))).
Defined.

(** ** Unknown identifiers *)

(** C2. When [project_id] is not a key of the store, [get_project],
    [update_project] (whatever its payload) and [delete_project] each raise
    [HTTPException(404, "Project not found")], which the request layer
    answers as status 404 with that detail, and the store stays as it was. *)
Theorem unknown_id_not_found (s : store) (project_id : string) :
  Dict.get project_id s = None ->
  let e := HTTPException 404 "Project not found" in
  let r := mkResponse 404 (CDetail "Project not found") in
  get_project project_id s = (inl e, s) /\
  (forall payload, update_project project_id payload s = (inl e, s)) /\
  delete_project project_id s = (inl e, s) /\
  serve (GET_project project_id) s = (r, s) /\
  (forall json payload, ProjectUpdate_init json = inr payload ->
     serve (PUT_project project_id json) s = (r, s) /\
     serve (PATCH_project project_id json) s = (r, s)) /\
  serve (DELETE_project project_id) s = (r, s).
Proof.
  intros H e r.
  pose proof (get_project_missing _ _ H) as Hg.
  pose proof (delete_project_missing _ _ H) as Hd.
  assert (Hu : forall payload, update_project project_id payload s = (inl e, s))
    by (intros payload; now apply update_project_missing).
  split; [exact Hg|]. split; [exact Hu|]. split; [exact Hd|].
  split; [cbn [serve]; unfold respond; now rewrite Hg|].
  split; [|cbn [serve]; unfold respond; now rewrite Hd].
  intros json payload Hv. cbn [serve]. rewrite Hv. unfold respond.
  now rewrite Hu.
Qed.

Lemma unknown_id_not_found_witness :
  Dict.get "no-such-id" (startup 1 2 3) = None /\
  delete_project "no-such-id" (startup 1 2 3) =
  (inl (HTTPException 404 "Project not found"), startup 1 2 3).
Proof.
  split; [reflexivity|].
  exact (proj1 (proj2 (proj2
    (unknown_id_not_found (startup 1 2 3) "no-such-id" eq_refl)))).
Defined.

(** ** Updates *)

(** C3. In a reachable store holding [p] under [project_id] (which is [p]'s
    own id), an update whose payload names only [title], with a title [t2]
    within bounds, returns and stores the record with title [t2] and with
    [p]'s id, description and tags; a get that follows reads it back. *)
Theorem update_title_only (s : store) (project_id : string) (p : Project) (t2 : string) :
  reachable s ->
  Dict.get project_id s = Some p ->
  title_ok t2 ->
  let payload := mkProjectUpdate (Some t2) None None ["title"] in
  let p' := mkProject t2 (description p) (tags p) (id p) in
  let s' := Dict.set project_id p' s in
  id p = project_id /\
  ProjectUpdate_init [("title", VStr t2)] = inr payload /\
  update_project project_id payload s = (inr p', s') /\
  serve (PUT_project project_id [("title", VStr t2)]) s
    = (mkResponse 200 (CProject p'), s') /\
  serve (PATCH_project project_id [("title", VStr t2)]) s
    = (mkResponse 200 (CProject p'), s') /\
  get_project project_id s' = (inr p', s').
Proof.
  intros Hr Hg Ht payload p' s'.
  destruct (store_inv_get _ _ _ (reachable_inv _ Hr) Hg) as [Hid [_ Hd]].
  assert (Hinit : ProjectUpdate_init [("title", VStr t2)] = inr payload).
  { unfold ProjectUpdate_init, with_default, optional_field.
    cbn [Dict.get String.eqb Ascii.eqb Bool.eqb].
    now rewrite (str_field_VStr _ _ _ Ht). }
  assert (Hu : update_project project_id payload s = (inr p', s')).
  { rewrite (update_project_found _ _ _ _ Hg).
    change (merged p payload) with p'.
    rewrite Project_init_Project_dict; [reflexivity|now split]. }
  repeat split; auto.
  - cbn [serve]. rewrite Hinit. unfold respond. now rewrite Hu.
  - cbn [serve]. rewrite Hinit. unfold respond. now rewrite Hu.
  - apply get_project_found, get_set_eq.
Qed.

Lemma update_title_only_witness :
  serve (PUT_project (uuid4_str 1) [("title", VStr "Noon Dashboard")]) (startup 1 2 3) =
  (mkResponse 200
     (CProject (mkProject "Noon Dashboard" (description (seed_record_1 ""))
                  (tags (seed_record_1 "")) (uuid4_str 1))),
   Dict.set (uuid4_str 1)
     (mkProject "Noon Dashboard" (description (seed_record_1 ""))
        (tags (seed_record_1 "")) (uuid4_str 1))
     (startup 1 2 3)).
Proof.
  refine (proj1 (proj2 (proj2 (proj2
    (update_title_only (startup 1 2 3) (uuid4_str 1) (seed_record_1 (uuid4_str 1))
       "Noon Dashboard" (reach_startup 1 2 3) eq_refl _))))).
  unfold title_ok. simpl. lia.
Defined.

(** C4. In a reachable store holding [p] under [project_id], an update whose
    body passes [ProjectUpdate]'s validation is answered 200 with the merged
    record, which is stored under [project_id]: each of title, description
    and tags keeps [p]'s value when the body omits the field or gives null,
    and takes the body's value otherwise; the id is [p]'s. *)
Theorem update_merges_fields (s : store) (project_id : string) (p : Project)
    (json : kwargs) (payload : ProjectUpdate) :
  reachable s ->
  Dict.get project_id s = Some p ->
  ProjectUpdate_init json = inr payload ->
  exists p',
    update_project project_id payload s = (inr p', Dict.set project_id p' s) /\
    serve (PUT_project project_id json) s
      = (mkResponse 200 (CProject p'), Dict.set project_id p' s) /\
    serve (PATCH_project project_id json) s
      = (mkResponse 200 (CProject p'), Dict.set project_id p' s) /\
    id p' = id p /\
    field_merged VStr "title" json (title p) (title p') /\
    field_merged VStr "description" json (description p) (description p') /\
    field_merged VStrList "tags" json (tags p) (tags p').
Proof.
  intros Hr Hg Hinit.
  destruct (store_inv_get _ _ _ (reachable_inv _ Hr) Hg) as [Hid [Ht Hd]].
  destruct (ProjectUpdate_init_inr json payload p Hinit)
    as (Vt & Vd & Et & Ed & Eg).
  assert (Hok : Project_ok (merged p payload)).
  { split.
    - rewrite Et. destruct (Dict.get "title" json) as [[|t| |]|]; auto.
    - rewrite Ed. destruct (Dict.get "description" json) as [[|d| |]|]; auto. }
  assert (Hu : update_project project_id payload s =
               (inr (merged p payload), Dict.set project_id (merged p payload) s)).
  { rewrite (update_project_found _ _ _ _ Hg).
    now rewrite Project_init_Project_dict. }
  exists (merged p payload). repeat split.
  - exact Hu.
  - cbn [serve]. rewrite Hinit. unfold respond. now rewrite Hu.
  - cbn [serve]. rewrite Hinit. unfold respond. now rewrite Hu.
  - intros H. now rewrite Et, H.
  - intros H. now rewrite Et, H.
  - intros a H. now rewrite Et, H.
  - intros H. now rewrite Ed, H.
  - intros H. now rewrite Ed, H.
  - intros a H. now rewrite Ed, H.
  - intros H. now rewrite Eg, H.
  - intros H. now rewrite Eg, H.
  - intros a H. now rewrite Eg, H.
Qed.

Lemma update_merges_fields_witness :
  exists p',
    serve (PATCH_project (uuid4_str 1) [("title", VStr "X"); ("tags", VNone)])
      (startup 1 2 3)
    = (mkResponse 200 (CProject p'), Dict.set (uuid4_str 1) p' (startup 1 2 3)) /\
    title p' = "X" /\
    description p' = description (seed_record_1 "") /\
    tags p' = tags (seed_record_1 "").
Proof.
  destruct (update_merges_fields (startup 1 2 3) (uuid4_str 1)
              (seed_record_1 (uuid4_str 1))
              [("title", VStr "X"); ("tags", VNone)]
              (mkProjectUpdate (Some "X") None None ["title"; "tags"])
              (reach_startup 1 2 3) eq_refl eq_refl)
    as (p' & _ & _ & Hpatch & _ & (_ & _ & Ht) & (Hd & _) & (_ & Hg & _)).
  exists p'. split; [exact Hpatch|]. split; [|split].
  - apply Ht. reflexivity.
  - apply Hd. reflexivity.
  - apply Hg. reflexivity.
Defined.

(** ** Seeding *)

Lemma startup_cases (r1 r2 r3 : N) :
  let records := [seed_record_1 (uuid4_str r1); seed_record_2 (uuid4_str r2);
                  seed_record_3 (uuid4_str r3)] in
  startup r1 r2 r3 <> Dict.empty /\
  (forall p, In p (Dict.values (startup r1 r2 r3)) -> In p records) /\
  (1 <= length (Dict.values (startup r1 r2 r3)) <= 3)%nat.
Proof.
  unfold startup. rewrite seed_data_empty. cbn [snd].
  generalize (uuid4_str r1), (uuid4_str r2), (uuid4_str r3). intros k1 k2 k3.
  cbn [Dict.set].
  destruct (String.eqb k2 k1); cbn [Dict.set];
    destruct (String.eqb k3 k1); try destruct (String.eqb k3 k2);
    cbn [Dict.values map snd length In].
  all: split; [discriminate|split; [intros p; simpl; tauto|simpl; lia]].
Qed.

(** C5, as the code has it.  [seed_data] returns without touching a
    non-empty store.  On the empty store it writes the three fixed records
    under their generated ids, without looking the ids up: the store after
    startup is never empty, holds only seed records, and holds between one
    and three of them; it holds exactly the three, and [list_projects]
    returns exactly those three, when the three generated ids are pairwise
    distinct.  Seeding again after startup changes nothing, and from any
    store a second [seed_data] changes nothing the first one left. *)
Theorem seed_data_idempotent (r1 r2 r3 : N) :
  let records := [seed_record_1 (uuid4_str r1); seed_record_2 (uuid4_str r2);
                  seed_record_3 (uuid4_str r3)] in
  (forall s, s <> Dict.empty -> seed_data r1 r2 r3 s = (inr tt, s)) /\
  (forall p, In p (Dict.values (startup r1 r2 r3)) -> In p records) /\
  (1 <= length (Dict.values (startup r1 r2 r3)) <= 3)%nat /\
  (uuid4_str r1 <> uuid4_str r2 ->
   uuid4_str r1 <> uuid4_str r3 ->
   uuid4_str r2 <> uuid4_str r3 ->
   startup r1 r2 r3 = map (fun p => (id p, p)) records /\
   list_projects (startup r1 r2 r3) = (inr records, startup r1 r2 r3) /\
   length (Dict.values (startup r1 r2 r3)) = 3%nat) /\
  (forall r1' r2' r3',
     seed_data r1' r2' r3' (startup r1 r2 r3) = (inr tt, startup r1 r2 r3)) /\
  (forall s r1' r2' r3',
     snd (seed_data r1' r2' r3' (snd (seed_data r1 r2 r3 s)))
     = snd (seed_data r1 r2 r3 s)).
Proof.
  intros records.
  pose proof (proj1 (startup_cases r1 r2 r3)) as Hne.
  split; [|split; [|split; [|split; [|split]]]].
  - intros s Hs. apply seed_data_nonempty, Hs.
  - exact (proj1 (proj2 (startup_cases r1 r2 r3))).
  - exact (proj2 (proj2 (startup_cases r1 r2 r3))).
  - intros H12 H13 H23.
    assert (E : startup r1 r2 r3 = map (fun p => (id p, p)) records).
    { unfold startup. rewrite seed_data_empty. cbn [snd Dict.set map records].
      apply String.eqb_neq in H12, H13, H23.
      rewrite String.eqb_sym in H12. rewrite String.eqb_sym in H13.
      rewrite String.eqb_sym in H23.
      rewrite H12. cbn [Dict.set]. rewrite H13, H23. reflexivity. }
    split; [exact E|]. split.
    + unfold list_projects, bind, read, ret. rewrite E. reflexivity.
    + rewrite E. unfold Dict.values. rewrite !length_map. reflexivity.
  - intros r1' r2' r3'. apply seed_data_nonempty, Hne.
  - intros s r1' r2' r3'. destruct s as [|e s].
    + change (snd (seed_data r1 r2 r3 [])) with (startup r1 r2 r3).
      rewrite (seed_data_nonempty _ _ _ _ Hne). reflexivity.
    + rewrite (seed_data_nonempty r1 r2 r3) by discriminate. cbn [snd].
      rewrite seed_data_nonempty by discriminate. reflexivity.
Qed.

Lemma seed_data_idempotent_witness :
  list_projects (startup 1 2 3) =
  (inr [seed_record_1 (uuid4_str 1); seed_record_2 (uuid4_str 2);
        seed_record_3 (uuid4_str 3)], startup 1 2 3) /\
  length (Dict.values (startup 1 2 3)) = 3%nat.
Proof.
  refine (proj2 (proj1 (proj2 (proj2 (proj2 (seed_data_idempotent 1 2 3)))) _ _ _));
    discriminate.
Defined.

(** C5 as first stated does not hold: nothing makes the three generated ids
    differ, and a repeated id overwrites.  With the same random bytes drawn
    three times, or with bytes that differ only in the bits [uuid4] masks,
    the listing after startup has one record, not three. *)
Lemma seed_data_three_records_refuted :
  list_projects (startup 5 5 5)
    = (inr [seed_record_3 (uuid4_str 5)], startup 5 5 5) /\
  length (Dict.values (startup 5 5 5)) <> 3%nat /\
  length (Dict.values (startup 0 (2 ^ 62) (2 ^ 77))) <> 3%nat.
Proof.
  split; [reflexivity|]. split; vm_compute; discriminate.
Qed.

(** ** Validation *)

Lemma ProjectCreate_init_valid json :
  create_body_valid json <-> exists payload, ProjectCreate_init json = inr payload.
Proof.
  split.
  - intros ((t & Gt & Ht) & (d & Gd & Hd) & Hg).
    unfold ProjectCreate_init, required, with_default. rewrite Gt, Gd.
    rewrite (str_field_VStr _ _ _ Ht), (str_field_VStr _ _ _ Hd).
    destruct Hg as [->|[g ->]]; simpl; eauto.
  - intros [payload H]. apply ProjectCreate_init_inr in H
      as (Ht & Hd & Gt & Gd & Gg).
    split; [eauto|]. split; [eauto|]. destruct Gg as [Gg|[Gg _]]; eauto.
Qed.

(** C6. A creation body whose title is empty or longer than 120 characters,
    or that breaks the validation rules in any other way, is answered 422
    and leaves the store, and so the listing, as it was. *)
Theorem invalid_create_rejected (s : store) (rnd : N) (json : kwargs) :
  (exists t, Dict.get "title" json = Some (VStr t) /\
             (String.length t = 0 \/ 120 < String.length t)%nat) \/
  ~ create_body_valid json ->
  serve (POST_projects rnd json) s = (mkResponse 422 CValidationErrors, s) /\
  list_projects (snd (serve (POST_projects rnd json) s)) = list_projects s.
Proof.
  intros H.
  assert (Hbad : ~ create_body_valid json).
  { destruct H as [(t & Gt & Hlen)|H]; [|exact H].
    intros ((t' & Gt' & Ht') & _). rewrite Gt in Gt'. injection Gt' as <-.
    unfold title_ok in Ht'. lia. }
  assert (E : serve (POST_projects rnd json) s = (mkResponse 422 CValidationErrors, s)).
  { cbn [serve]. destruct (ProjectCreate_init json) as [e|payload] eqn:Hi.
    - reflexivity.
    - exfalso. apply Hbad, ProjectCreate_init_valid. eauto. }
  split; [exact E|]. now rewrite E.
Qed.

Lemma invalid_create_rejected_witness :
  serve (POST_projects 9 [("title", VStr ""); ("description", VStr "Y")])
    (startup 1 2 3)
  = (mkResponse 422 CValidationErrors, startup 1 2 3).
Proof.
  refine (proj1 (invalid_create_rejected (startup 1 2 3) 9
                   [("title", VStr ""); ("description", VStr "Y")] _)).
  left. exists "". split; [reflexivity|left; reflexivity].
Defined.

(** ** Deletion *)

(** C7. In a reachable store holding [p] under [project_id],
    [delete_project] removes the entry and is answered 204 with an empty
    body; afterwards the listing contains neither [p] nor any record with
    that id, and a get on the id is answered 404. *)
Theorem delete_removes (s : store) (project_id : string) (p : Project) :
  reachable s ->
  Dict.get project_id s = Some p ->
  let s' := Dict.del project_id s in
  delete_project project_id s = (inr tt, s') /\
  serve (DELETE_project project_id) s = (mkResponse 204 CEmpty, s') /\
  list_projects s' = (inr (Dict.values s'), s') /\
  ~ In p (Dict.values s') /\
  (forall q, In q (Dict.values s') -> id q <> project_id) /\
  get_project project_id s' = (inl (HTTPException 404 "Project not found"), s') /\
  serve (GET_project project_id) s'
    = (mkResponse 404 (CDetail "Project not found"), s').
Proof.
  intros Hr Hg s'.
  pose proof (reachable_inv _ Hr) as Hinv.
  destruct (store_inv_get _ _ _ Hinv Hg) as [Hid _].
  pose proof (delete_project_found _ _ _ Hg) as Hd.
  assert (Hq : forall q, In q (Dict.values s') -> id q <> project_id).
  { intros q Hin. unfold Dict.values in Hin.
    apply in_map_iff in Hin as [[k q'] [E Hin]]. simpl in E. subst q'.
    apply In_del in Hin as [Hne Hin].
    destruct Hinv as [_ Hall]. rewrite Forall_forall in Hall.
    destruct (Hall _ Hin) as [Hk _]. simpl in Hk. congruence. }
  pose proof (get_project_missing project_id s' (get_del_eq _ _)) as Hm.
  split; [exact Hd|].
  split; [cbn [serve]; unfold respond; now rewrite Hd|].
  split; [reflexivity|].
  split; [intros Hin; exact (Hq _ Hin Hid)|].
  split; [exact Hq|].
  split; [exact Hm|].
  cbn [serve]. unfold respond. now rewrite Hm.
Qed.

Lemma delete_removes_witness :
  serve (DELETE_project (uuid4_str 2)) (startup 1 2 3) =
  (mkResponse 204 CEmpty,
   [(uuid4_str 1, seed_record_1 (uuid4_str 1));
    (uuid4_str 3, seed_record_3 (uuid4_str 3))]).
Proof.
  exact (proj1 (proj2
    (delete_removes (startup 1 2 3) (uuid4_str 2) (seed_record_2 (uuid4_str 2))
       (reach_startup 1 2 3) eq_refl))).
Defined.

(** ** Invariants of the reachable stores *)

(** C8. In every reachable store, every record has a title of 1 to 120
    characters and a description of 1 to 2000 characters. *)
Theorem stored_records_within_bounds (s : store) :
  reachable s ->
  forall p, In p (Dict.values s) ->
    (1 <= String.length (title p) <= 120)%nat /\
    (1 <= String.length (description p) <= 2000)%nat.
Proof.
  intros Hr p Hin. destruct (reachable_inv _ Hr) as [_ Hall].
  rewrite Forall_forall in Hall. unfold Dict.values in Hin.
  apply in_map_iff in Hin as [[k p'] [E Hin]]. simpl in E. subst p'.
  destruct (Hall _ Hin) as [_ Hok]. exact Hok.
Qed.

Lemma stored_records_within_bounds_witness :
  (1 <= String.length (title (seed_record_2 (uuid4_str 2))) <= 120)%nat /\
  (1 <= String.length (description (seed_record_2 (uuid4_str 2))) <= 2000)%nat.
Proof.
  apply (stored_records_within_bounds
           (snd (serve (DELETE_project (uuid4_str 1)) (startup 1 2 3)))).
  - apply reach_serve, reach_startup.
  - left. reflexivity.
Defined.

(** C9. In every reachable store each record's [id] is the key it is stored
    under, and keys are held once.  A successful [update_project] returns a
    record with the id of the record it replaced, which is the key; a
    successful [create_project] returns a record stored under its own id. *)
Theorem id_is_key (s : store) :
  reachable s ->
  (forall k p, In (k, p) s -> id p = k) /\
  (forall k p, Dict.get k s = Some p -> id p = k) /\
  NoDup (Dict.keys s) /\
  (forall project_id payload updated,
     fst (update_project project_id payload s) = inr updated ->
     id updated = project_id /\
     exists p, Dict.get project_id s = Some p /\ id updated = id p) /\
  (forall rnd payload project,
     fst (create_project rnd payload s) = inr project ->
     Dict.get (id project) (snd (create_project rnd payload s)) = Some project).
Proof.
  intros Hr. pose proof (reachable_inv _ Hr) as Hinv.
  destruct Hinv as [Hnd Hall]. rewrite Forall_forall in Hall.
  assert (Hin : forall k p, In (k, p) s -> id p = k)
    by (intros k p H; exact (proj1 (Hall _ H))).
  split; [exact Hin|]. split; [intros k p H; apply Hin, get_In, H|].
  split; [exact Hnd|]. split.
  - intros pid payload updated.
    destruct (Dict.get pid s) as [p|] eqn:G.
    + rewrite (update_project_found _ _ _ _ G).
      destruct (Project_init _) as [e|u] eqn:E; cbn [fst]; [discriminate|].
      intros [= ->]. apply Project_init_inr in E as (_ & _ & _ & Hid & _).
      cbn [Dict.get String.eqb Ascii.eqb Bool.eqb merged Project_dict id] in Hid.
      injection Hid as Hid. apply get_In, Hin in G.
      split; [congruence|]. exists p. auto.
    + rewrite update_project_missing by exact G. discriminate.
  - intros rnd payload project. unfold create_project, bind, lift, modify, ret.
    destruct (Project_init _) as [e|u] eqn:E; cbn [fst snd]; [discriminate|].
    intros [= ->]. apply Project_init_inr in E as (_ & _ & _ & Hid & _).
    cbn [Dict.get String.eqb Ascii.eqb Bool.eqb] in Hid. injection Hid as Hid.
    rewrite <- Hid. apply get_set_eq.
Qed.

Lemma id_is_key_witness :
  let s := snd (serve (PUT_project (uuid4_str 3) [("title", VStr "Commerce")])
                  (startup 1 2 3)) in
  let p := mkProject "Commerce" (description (seed_record_3 ""))
             (tags (seed_record_3 "")) (uuid4_str 3) in
  In (uuid4_str 3, p) s /\ id p = uuid4_str 3.
Proof.
  intros s p.
  assert (Hin : In (uuid4_str 3, p) s) by (right; right; left; reflexivity).
  split; [exact Hin|].
  exact (proj1 (id_is_key s (reach_serve _ _ (reach_startup 1 2 3))) _ _ Hin).
Defined.

(** ** What each operation leaves alone *)

Lemma same_elsewhere_refl k s : same_elsewhere k s s.
Proof. split; auto. Qed.

Lemma same_elsewhere_set k p s : same_elsewhere k s (Dict.set k p s).
Proof.
  split; [apply others_set|]. intros k' Hne. apply get_set_ne. congruence.
Qed.

Lemma same_elsewhere_del k s : same_elsewhere k s (Dict.del k s).
Proof.
  split; [apply others_del|]. intros k' Hne. apply get_del_ne. congruence.
Qed.

(** C10. [list_projects] and [get_project] return the store they were given,
    as do the requests that call them; [create_project], [update_project]
    and [delete_project] change at most the entry under the id they work on
    (the generated id, or [project_id]): all other entries stay, in place. *)
Theorem operations_frame (s : store) :
  snd (list_projects s) = s /\
  (forall project_id, snd (get_project project_id s) = s) /\
  snd (serve GET_projects s) = s /\
  (forall project_id, snd (serve (GET_project project_id) s) = s) /\
  (forall rnd payload,
     same_elsewhere (uuid4_str rnd) s (snd (create_project rnd payload s))) /\
  (forall project_id payload,
     same_elsewhere project_id s (snd (update_project project_id payload s))) /\
  (forall project_id,
     same_elsewhere project_id s (snd (delete_project project_id s))).
Proof.
  assert (Hget : forall project_id, snd (get_project project_id s) = s).
  { intros pid. destruct (Dict.get pid s) as [p|] eqn:G.
    - now rewrite (get_project_found _ _ _ G).
    - now rewrite get_project_missing. }
  split; [reflexivity|]. split; [exact Hget|]. split; [reflexivity|].
  split; [intros pid; cbn [serve]; rewrite snd_respond; apply Hget|].
  split; [|split].
  - intros rnd payload. unfold create_project, bind, lift, modify, ret.
    destruct (Project_init _) as [e|p]; cbn [snd].
    + apply same_elsewhere_refl.
    + apply same_elsewhere_set.
  - intros pid payload. destruct (Dict.get pid s) as [p|] eqn:G.
    + rewrite (update_project_found _ _ _ _ G).
      destruct (Project_init _) as [e|u]; cbn [snd].
      * apply same_elsewhere_refl.
      * apply same_elsewhere_set.
    + rewrite update_project_missing by exact G. apply same_elsewhere_refl.
  - intros pid. destruct (Dict.get pid s) as [p|] eqn:G.
    + rewrite (delete_project_found _ _ _ G). apply same_elsewhere_del.
    + rewrite delete_project_missing by exact G. apply same_elsewhere_refl.
Qed.

Lemma operations_frame_witness :
  Dict.get (uuid4_str 3) (snd (delete_project (uuid4_str 2) (startup 1 2 3)))
  = Dict.get (uuid4_str 3) (startup 1 2 3).
Proof.
  refine (proj2
    (proj2 (proj2 (proj2 (proj2 (proj2 (proj2
       (operations_frame (startup 1 2 3)))))))
       (uuid4_str 2))
    (uuid4_str 3) _).
  discriminate.
Defined.

(** ** The specification's concrete scenario

    POST a project, DELETE it, GET it: 201 with the generated id, 204, 404. *)

Example post_delete_get :
  let json := [("title", VStr "X"); ("description", VStr "Y");
               ("tags", VStrList ["a"])] in
  let pid := uuid4_str 42 in
  let '(r1, s1) := serve (POST_projects 42 json) (startup 1 2 3) in
  let '(r2, s2) := serve (DELETE_project pid) s1 in
  let '(r3, s3) := serve (GET_project pid) s2 in
  r1 = mkResponse 201 (CProject (mkProject "X" "Y" ["a"] pid)) /\
  r2 = mkResponse 204 CEmpty /\
  r3 = mkResponse 404 (CDetail "Project not found") /\
  s3 = startup 1 2 3.
Proof. vm_compute. repeat split. Qed.

(** A title of 121 characters is refused, one of 120 is accepted. *)
Example title_length_boundary :
  let long n := string_of_list_ascii (repeat "a"%char n) in
  status (fst (serve (POST_projects 5
                 [("title", VStr (long 121)); ("description", VStr "Y")]) []))
    = 422%Z /\
  status (fst (serve (POST_projects 5
                 [("title", VStr (long 120)); ("description", VStr "Y")]) []))
    = 201%Z.
Proof. vm_compute. split; reflexivity. Qed.

(** * Further properties of the handlers *)

(** ** More on dictionaries *)

Section DictMore.
Context {V : Type}.
Implicit Types (k : string) (v : V) (d : Dict.t V).

Lemma set_same k v d : Dict.get k d = Some v -> Dict.set k v d = d.
Proof.
  induction d as [|[k0 v0] d IH]; simpl; [discriminate|].
  destruct (String.eqb k k0) eqn:E.
  - now intros [= ->].
  - intros H. now rewrite IH.
Qed.

Lemma set_set k v v' d : Dict.set k v (Dict.set k v' d) = Dict.set k v d.
Proof.
  induction d as [|[k0 v0] d IH]; simpl.
  - now rewrite String.eqb_refl.
  - destruct (String.eqb k k0) eqn:E; simpl; rewrite E; [reflexivity|].
    now rewrite IH.
Qed.

Lemma set_fresh k v d : Dict.get k d = None -> Dict.set k v d = d ++ [(k, v)].
Proof.
  induction d as [|[k0 v0] d IH]; simpl; [reflexivity|].
  destruct (String.eqb k k0); [discriminate|]. intros H. now rewrite IH.
Qed.

Lemma set_set_comm k1 k2 v1 v2 d :
  k1 <> k2 ->
  Dict.mem k1 d = true \/ Dict.mem k2 d = true ->
  Dict.set k1 v1 (Dict.set k2 v2 d) = Dict.set k2 v2 (Dict.set k1 v1 d).
Proof.
  intros Hne. unfold Dict.mem.
  induction d as [|[k0 v0] d IH]; simpl.
  - intros [H|H]; discriminate.
  - destruct (String.eqb k1 k0) eqn:E1, (String.eqb k2 k0) eqn:E2; simpl;
      rewrite ?E1, ?E2; try reflexivity.
    + apply String.eqb_eq in E1, E2. congruence.
    + intros H. now rewrite IH.
Qed.

Lemma del_absent k d : Dict.get k d = None -> Dict.del k d = d.
Proof.
  induction d as [|[k0 v0] d IH]; simpl; [reflexivity|].
  destruct (String.eqb k k0); [discriminate|]. intros H. now rewrite IH.
Qed.

Lemma keys_not_In_get k d : ~ In k (Dict.keys d) -> Dict.get k d = None.
Proof.
  induction d as [|[k0 v0] d IH]; simpl; [reflexivity|].
  intros H. destruct (String.eqb k k0) eqn:E.
  - apply String.eqb_eq in E. subst. tauto.
  - apply IH. tauto.
Qed.

Lemma del_split k v d :
  NoDup (Dict.keys d) -> Dict.get k d = Some v ->
  exists d1 d2, d = d1 ++ (k, v) :: d2 /\ Dict.del k d = d1 ++ d2.
Proof.
  induction d as [|[k0 v0] d IH]; simpl; [discriminate|].
  intros Hnd. inversion Hnd as [|? ? Hnotin Hnd']; subst.
  destruct (String.eqb k k0) eqn:E.
  - apply String.eqb_eq in E. subst k0. intros [= ->].
    exists [], d. split; [reflexivity|].
    apply del_absent, keys_not_In_get, Hnotin.
  - intros H. destruct (IH Hnd' H) as (d1 & d2 & -> & Hdel).
    exists ((k0, v0) :: d1), d2. split; [reflexivity|].
    simpl. now rewrite Hdel.
Qed.

End DictMore.

Lemma values_keys_ids (s : store) :
  Forall entry_ok s -> map id (Dict.values s) = Dict.keys s.
Proof.
  induction 1 as [|[k p] s [Hid _] _ IH]; simpl; [reflexivity|].
  simpl in Hid. now rewrite Hid, IH.
Qed.

(** ** The listing *)

(** X1. In every reachable store [list_projects] returns one record per key,
    in the order of the keys: the ids of the listed records are the keys,
    and no two listed records have the same id. *)
Theorem listing_ids_unique (s : store) :
  reachable s ->
  list_projects s = (inr (Dict.values s), s) /\
  map id (Dict.values s) = Dict.keys s /\
  NoDup (map id (Dict.values s)).
Proof.
  intros Hr. destruct (reachable_inv _ Hr) as [Hnd Hall].
  pose proof (values_keys_ids _ Hall) as E.
  split; [reflexivity|]. split; [exact E|]. now rewrite E.
Qed.

Lemma listing_ids_unique_witness :
  NoDup (map id (Dict.values
    (snd (serve (POST_projects 4
            [("title", VStr "X"); ("description", VStr "Y")]) (startup 1 2 3))))).
Proof.
  exact (proj2 (proj2 (listing_ids_unique _
    (reach_serve _ (POST_projects 4 [("title", VStr "X"); ("description", VStr "Y")])
       (reach_startup 1 2 3))))).
Defined.

(** X2. [create_project] does not look the generated id up before writing.
    With a payload within bounds, a fresh id appends the new record at the
    end of the listing; an id that is already a key silently replaces the
    record stored there, the keys and the length of the listing staying as
    they were. *)
Theorem create_appends_or_overwrites (s : store) (rnd : N) (payload : ProjectCreate) :
  title_ok (pc_title payload) ->
  description_ok (pc_description payload) ->
  let p := mkProject (pc_title payload) (pc_description payload)
             (pc_tags payload) (uuid4_str rnd) in
  let s' := snd (create_project rnd payload s) in
  (Dict.get (uuid4_str rnd) s = None ->
   Dict.values s' = Dict.values s ++ [p]) /\
  (forall q, Dict.get (uuid4_str rnd) s = Some q ->
   Dict.keys s' = Dict.keys s /\
   length (Dict.values s') = length (Dict.values s) /\
   Dict.get (uuid4_str rnd) s' = Some p).
Proof.
  intros Ht Hd p s'. unfold s'.
  rewrite (create_project_valid _ _ _ Ht Hd). cbn [snd]. fold p. split.
  - intros H. rewrite (set_fresh _ _ _ H). unfold Dict.values.
    now rewrite map_app.
  - intros q H.
    assert (K : Dict.keys (Dict.set (uuid4_str rnd) p s) = Dict.keys s).
    { rewrite keys_set. unfold Dict.mem. now rewrite H. }
    split; [exact K|]. split; [|apply get_set_eq].
    unfold Dict.values. rewrite !length_map.
    rewrite <- (length_map fst (Dict.set _ _ _)), <- (length_map fst s).
    unfold Dict.keys in K. now rewrite K.
Qed.

Lemma create_appends_or_overwrites_witness :
  Dict.get (uuid4_str 1)
    (snd (create_project 1 (mkProjectCreate "X" "Y" []) (startup 1 2 3)))
  = Some (mkProject "X" "Y" [] (uuid4_str 1)).
Proof.
  refine (proj2 (proj2 (proj2
    (create_appends_or_overwrites (startup 1 2 3) 1 (mkProjectCreate "X" "Y" []) _ _)
    (seed_record_1 (uuid4_str 1)) eq_refl)));
    [unfold title_ok|unfold description_ok]; simpl; lia.
Defined.

(** X3. [update_project] never adds, removes or moves an entry: whatever the
    id and the payload, and whether it returns or raises, the keys of the
    store are the same, in the same order, after the call; so are they after
    a PUT or PATCH request with any body. *)
Theorem update_keeps_keys (s : store) (project_id : string) :
  (forall payload,
     Dict.keys (snd (update_project project_id payload s)) = Dict.keys s) /\
  (forall json,
     Dict.keys (snd (serve (PUT_project project_id json) s)) = Dict.keys s /\
     Dict.keys (snd (serve (PATCH_project project_id json) s)) = Dict.keys s).
Proof.
  assert (H : forall payload,
             Dict.keys (snd (update_project project_id payload s)) = Dict.keys s).
  { intros payload. destruct (Dict.get project_id s) as [p|] eqn:G.
    - rewrite (update_project_found _ _ _ _ G).
      destruct (Project_init _) as [e|u]; cbn [snd]; [reflexivity|].
      rewrite keys_set. unfold Dict.mem. now rewrite G.
    - now rewrite update_project_missing. }
  split; [exact H|].
  intros json. cbn [serve].
  destruct (ProjectUpdate_init json) as [e|payload]; [split; reflexivity|].
  rewrite snd_respond. auto.
Qed.

(** X4. In a reachable store holding [p] under [project_id],
    [delete_project] takes exactly that one record out of the listing: the
    records before it and after it stay, in order. *)
Theorem delete_takes_one (s : store) (project_id : string) (p : Project) :
  reachable s ->
  Dict.get project_id s = Some p ->
  exists before after,
    Dict.values s = before ++ p :: after /\
    Dict.values (snd (delete_project project_id s)) = before ++ after /\
    length (Dict.values (snd (delete_project project_id s)))
      = pred (length (Dict.values s)).
Proof.
  intros Hr Hg. destruct (reachable_inv _ Hr) as [Hnd _].
  rewrite (delete_project_found _ _ _ Hg). cbn [snd].
  destruct (del_split _ _ _ Hnd Hg) as (d1 & d2 & E & Hdel).
  exists (Dict.values d1), (Dict.values d2). rewrite Hdel.
  rewrite E. unfold Dict.values. rewrite !map_app. simpl.
  split; [reflexivity|]. split; [reflexivity|].
  rewrite !length_app. simpl. lia.
Qed.

Lemma delete_takes_one_witness :
  exists before after,
    Dict.values (startup 1 2 3) = before ++ seed_record_2 (uuid4_str 2) :: after /\
    Dict.values (snd (delete_project (uuid4_str 2) (startup 1 2 3)))
      = before ++ after /\
    length (Dict.values (snd (delete_project (uuid4_str 2) (startup 1 2 3))))
      = pred (length (Dict.values (startup 1 2 3))).
Proof.
  exact (delete_takes_one (startup 1 2 3) (uuid4_str 2)
           (seed_record_2 (uuid4_str 2)) (reach_startup 1 2 3) eq_refl).
Defined.

(** ** Updates that change nothing, and updates repeated *)

Lemma merged_twice p payload :
  merged (merged p payload) payload = merged p payload.
Proof.
  destruct payload as [t d g fs]. unfold merged, chosen.
  cbn [pu_title pu_description pu_tags pu_fields_set title description tags id].
  destruct (existsb (String.eqb "title") fs), t,
           (existsb (String.eqb "description") fs), d,
           (existsb (String.eqb "tags") fs), g; reflexivity.
Qed.

(** X5. In a reachable store holding [p] under [project_id], an update whose
    body gives no field a value (each field is omitted or null) is answered
    200 with [p] itself and leaves the store exactly as it was. *)
Theorem null_update_is_identity (s : store) (project_id : string) (p : Project)
    (json : kwargs) :
  reachable s ->
  Dict.get project_id s = Some p ->
  (Dict.get "title" json = None \/ Dict.get "title" json = Some VNone) ->
  (Dict.get "description" json = None \/ Dict.get "description" json = Some VNone) ->
  (Dict.get "tags" json = None \/ Dict.get "tags" json = Some VNone) ->
  serve (PUT_project project_id json) s = (mkResponse 200 (CProject p), s) /\
  serve (PATCH_project project_id json) s = (mkResponse 200 (CProject p), s).
Proof.
  intros Hr Hg Ht Hd Htg.
  destruct (store_inv_get _ _ _ (reachable_inv _ Hr) Hg) as [_ Hok].
  assert (exists payload, ProjectUpdate_init json = inr payload) as [payload Hi].
  { unfold ProjectUpdate_init, with_default.
    destruct Ht as [-> | ->], Hd as [-> | ->], Htg as [-> | ->]; simpl; eauto. }
  destruct (ProjectUpdate_init_inr json payload p Hi) as (_ & _ & Et & Ed & Eg).
  assert (Em : merged p payload = p).
  { destruct p as [t d g i]. unfold merged in *. simpl in *.
    rewrite Et, Ed, Eg.
    destruct Ht as [-> | ->], Hd as [-> | ->], Htg as [-> | ->]; reflexivity. }
  assert (Hu : update_project project_id payload s = (inr p, s)).
  { rewrite (update_project_found _ _ _ _ Hg), Em.
    rewrite (Project_init_Project_dict _ Hok). now rewrite (set_same _ _ _ Hg). }
  split; cbn [serve]; rewrite Hi; unfold respond; now rewrite Hu.
Qed.

Lemma null_update_is_identity_witness :
  serve (PATCH_project (uuid4_str 3) [("tags", VNone)]) (startup 1 2 3)
  = (mkResponse 200 (CProject (seed_record_3 (uuid4_str 3))), startup 1 2 3).
Proof.
  exact (proj2 (null_update_is_identity (startup 1 2 3) (uuid4_str 3)
           (seed_record_3 (uuid4_str 3)) [("tags", VNone)]
           (reach_startup 1 2 3) eq_refl
           (or_introl eq_refl) (or_introl eq_refl) (or_intror eq_refl))).
Defined.

(** X6. Updates are idempotent: in a reachable store, sending the same update
    request a second time gives the same response and the same store as the
    first time. *)
Theorem update_idempotent (s : store) (project_id : string) (json : kwargs) :
  reachable s ->
  let once := serve (PUT_project project_id json) s in
  serve (PUT_project project_id json) (snd once) = once.
Proof.
  intros Hr once. unfold once. cbn [serve].
  destruct (ProjectUpdate_init json) as [e|payload] eqn:Hi; [reflexivity|].
  destruct (Dict.get project_id s) as [p|] eqn:Hg.
  - destruct (store_inv_get _ _ _ (reachable_inv _ Hr) Hg) as [_ [Ht Hd]].
    destruct (ProjectUpdate_init_inr json payload p Hi) as (Vt & Vd & Et & Ed & _).
    assert (Hok : Project_ok (merged p payload)).
    { split.
      - rewrite Et. destruct (Dict.get "title" json) as [[|t| |]|]; auto.
      - rewrite Ed. destruct (Dict.get "description" json) as [[|d| |]|]; auto. }
    assert (E : respond 200 CProject (update_project project_id payload) s
                = (mkResponse 200 (CProject (merged p payload)),
                   Dict.set project_id (merged p payload) s)).
    { unfold respond.
      now rewrite (update_project_found _ _ _ _ Hg),
        (Project_init_Project_dict _ Hok). }
    rewrite E. cbn [snd]. unfold respond.
    rewrite (update_project_found _ _ (merged p payload) _ (get_set_eq _ _ _)).
    rewrite merged_twice, (Project_init_Project_dict _ Hok).
    now rewrite set_set.
  - assert (E : respond 200 CProject (update_project project_id payload) s
                = (mkResponse 404 (CDetail "Project not found"), s)).
    { unfold respond. now rewrite (update_project_missing _ _ _ Hg). }
    rewrite E. cbn [snd]. exact E.
Qed.

Lemma update_idempotent_witness :
  serve (PUT_project (uuid4_str 1) [("title", VStr "Noon")])
    (snd (serve (PUT_project (uuid4_str 1) [("title", VStr "Noon")]) (startup 1 2 3)))
  = serve (PUT_project (uuid4_str 1) [("title", VStr "Noon")]) (startup 1 2 3).
Proof.
  exact (update_idempotent (startup 1 2 3) (uuid4_str 1) [("title", VStr "Noon")]
           (reach_startup 1 2 3)).
Defined.

(** ** Validation of update bodies *)

Lemma ProjectUpdate_init_valid json :
  update_body_valid json <-> exists payload, ProjectUpdate_init json = inr payload.
Proof.
  unfold update_body_valid, ProjectUpdate_init, with_default, optional_field.
  split.
  - intros (Ht & Hd & Hg).
    destruct (Dict.get "title" json) as [vt|].
    + destruct (Ht _ eq_refl) as [->|(t & -> & Bt)];
        [|rewrite (str_field_VStr _ _ _ Bt)];
        (destruct (Dict.get "description" json) as [vd|];
         [destruct (Hd _ eq_refl) as [->|(d & -> & Bd)];
          [|rewrite (str_field_VStr _ _ _ Bd)]|]);
        (destruct (Dict.get "tags" json) as [vg|];
         [destruct (Hg _ eq_refl) as [->|(g & ->)]|]); simpl; eauto.
    + destruct (Dict.get "description" json) as [vd|];
        [destruct (Hd _ eq_refl) as [->|(d & -> & Bd)];
         [|rewrite (str_field_VStr _ _ _ Bd)]|];
        (destruct (Dict.get "tags" json) as [vg|];
         [destruct (Hg _ eq_refl) as [->|(g & ->)]|]); simpl; eauto.
  - intros [payload H].
    destruct (Dict.get "title" json) as [[|t| |]|];
      cbn [str_list_field] in H; try discriminate;
    destruct (Dict.get "description" json) as [[|d| |]|];
      cbn [str_list_field] in H; try discriminate;
    destruct (Dict.get "tags" json) as [[| |g|]|];
      cbn [str_list_field] in H; try discriminate.
    all: try (destruct (str_field 1 120 (VStr t)) as [t'|] eqn:Et; [|discriminate];
              apply str_field_Some in Et as [[= <-] Et]).
    all: try (destruct (str_field 1 2000 (VStr d)) as [d'|] eqn:Ed; [|discriminate];
              apply str_field_Some in Ed as [[= <-] Ed]).
    all: repeat split; intros v [= <-]; eauto; discriminate.
Qed.

Lemma respond_not_unprocessable {A} code (render : A -> content) (h : handler A) s s' :
  (forall a, render a <> CValidationErrors) ->
  respond code render h s <> (mkResponse 422 CValidationErrors, s').
Proof.
  intros Hr. unfold respond.
  destruct (h s) as [[[c d|]|a] s1]; intros E; inversion E.
  eapply Hr; eauto.
Qed.

(** X7. A PUT or PATCH body is answered 422, with the store untouched,
    exactly when it breaks [ProjectUpdate]'s rules (a title given outside 1
    to 120 characters, a description given outside 1 to 2000, a field of the
    wrong type).  The body is validated before the handler looks the id up,
    so an invalid body is answered 422 whether or not the id exists. *)
Theorem invalid_update_rejected (s : store) (project_id : string) (json : kwargs) :
  (~ update_body_valid json <->
   serve (PUT_project project_id json) s = (mkResponse 422 CValidationErrors, s)) /\
  (~ update_body_valid json <->
   serve (PATCH_project project_id json) s = (mkResponse 422 CValidationErrors, s)).
Proof.
  cbn [serve]. destruct (ProjectUpdate_init json) as [e|payload] eqn:Hi.
  - assert (Hbad : ~ update_body_valid json).
    { intros Hv. apply ProjectUpdate_init_valid in Hv as [payload Hp].
      rewrite Hp in Hi. discriminate. }
    split; split; auto.
  - assert (Hv : update_body_valid json)
      by (apply ProjectUpdate_init_valid; eauto).
    split; split; intros H; try contradiction; exfalso;
      revert H; apply respond_not_unprocessable; discriminate.
Qed.

Lemma invalid_update_rejected_witness :
  serve (PUT_project "no-such-id" [("title", VStr "")]) (startup 1 2 3)
  = (mkResponse 422 CValidationErrors, startup 1 2 3).
Proof.
  refine (proj1 (proj1 (invalid_update_rejected (startup 1 2 3) "no-such-id"
                          [("title", VStr "")])) _).
  intros (Ht & _). destruct (Ht _ eq_refl) as [H|(t & H & B)]; [discriminate|].
  injection H as <-. unfold title_ok in B. simpl in B. lia.
Defined.

(** ** Responses *)

Lemma merged_ok p json payload :
  Project_ok p -> ProjectUpdate_init json = inr payload ->
  Project_ok (merged p payload).
Proof.
  intros [Ht Hd] Hi.
  destruct (ProjectUpdate_init_inr json payload p Hi) as (Vt & Vd & Et & Ed & _).
  split.
  - rewrite Et. destruct (Dict.get "title" json) as [[|t| |]|]; auto.
  - rewrite Ed. destruct (Dict.get "description" json) as [[|d| |]|]; auto.
Qed.

(** X8. In a reachable store no request is answered 500: the re-validation
    in [create_project] and [update_project] never fails on a body the
    request layer let through.  Every response is the route's success code
    (200, 201 for POST, 204 for DELETE), 404 or 422. *)
Theorem no_server_error (s : store) (req : request) :
  reachable s ->
  body (fst (serve req s)) <> CServerError /\
  In (status (fst (serve req s))) [200; 201; 204; 404; 422]%Z.
Proof.
  intros Hr. pose proof (reachable_inv _ Hr) as Hinv.
  assert (Hupd : forall pid json,
    let r := match ProjectUpdate_init json with
             | inr payload => respond 200 CProject (update_project pid payload)
             | inl _ => unprocessable
             end s in
    body (fst r) <> CServerError /\
    In (status (fst r)) [200; 201; 204; 404; 422]%Z).
  { intros pid json.
    destruct (ProjectUpdate_init json) as [e|payload] eqn:Hi; cbn zeta.
    - simpl. split; [discriminate|tauto].
    - unfold respond. destruct (Dict.get pid s) as [p|] eqn:Hg.
      + destruct (store_inv_get _ _ _ Hinv Hg) as [_ Hok].
        rewrite (update_project_found _ _ _ _ Hg).
        rewrite (Project_init_Project_dict _ (merged_ok _ _ _ Hok Hi)).
        simpl. split; [discriminate|tauto].
      + rewrite (update_project_missing _ _ _ Hg).
        simpl. split; [discriminate|tauto]. }
  destruct req as [| | |rnd json|pid|pid json|pid json|pid]; cbn [serve];
    try apply Hupd; try (simpl; split; [discriminate|tauto]).
  - destruct (ProjectCreate_init json) as [e|payload] eqn:Hi.
    + simpl. split; [discriminate|tauto].
    + destruct (ProjectCreate_init_inr _ _ Hi) as (Ht & Hd & _).
      unfold respond. rewrite (create_project_valid _ _ _ Ht Hd).
      simpl. split; [discriminate|tauto].
  - unfold respond. destruct (Dict.get pid s) as [p|] eqn:Hg.
    + rewrite (get_project_found _ _ _ Hg). simpl. split; [discriminate|tauto].
    + rewrite (get_project_missing _ _ Hg). simpl. split; [discriminate|tauto].
  - unfold respond. destruct (Dict.get pid s) as [p|] eqn:Hg.
    + rewrite (delete_project_found _ _ _ Hg). simpl. split; [discriminate|tauto].
    + rewrite (delete_project_missing _ _ Hg). simpl. split; [discriminate|tauto].
Qed.

Lemma no_server_error_witness :
  body (fst (serve (PATCH_project (uuid4_str 2) [("description", VStr "D")])
               (startup 1 2 3))) <> CServerError /\
  In (status (fst (serve (PATCH_project (uuid4_str 2) [("description", VStr "D")])
                     (startup 1 2 3))))
     [200; 201; 204; 404; 422]%Z.
Proof.
  exact (no_server_error (startup 1 2 3)
           (PATCH_project (uuid4_str 2) [("description", VStr "D")])
           (reach_startup 1 2 3)).
Defined.

(** X9. In a reachable store the listing and the lookup agree: a record is
    in the result of [list_projects] exactly when [get_project] on its id
    returns it. *)
Theorem listing_iff_get (s : store) (p : Project) :
  reachable s ->
  In p (Dict.values s) <-> get_project (id p) s = (inr p, s).
Proof.
  intros Hr. destruct (reachable_inv _ Hr) as [Hnd Hall].
  rewrite Forall_forall in Hall. split.
  - intros Hin. unfold Dict.values in Hin.
    apply in_map_iff in Hin as [[k q] [E Hin]]. simpl in E. subst q.
    destruct (Hall _ Hin) as [Hid _]. simpl in Hid. subst k.
    apply get_project_found. now apply In_get.
  - intros H. destruct (Dict.get (id p) s) as [q|] eqn:Hg.
    + rewrite (get_project_found _ _ _ Hg) in H. injection H as ->.
      apply get_In in Hg. unfold Dict.values.
      change p with (snd (id p, p)). now apply in_map.
    + rewrite (get_project_missing _ _ Hg) in H. discriminate.
Qed.

Lemma listing_iff_get_witness :
  get_project (id (seed_record_3 (uuid4_str 3))) (startup 1 2 3)
  = (inr (seed_record_3 (uuid4_str 3)), startup 1 2 3).
Proof.
  refine (proj1 (listing_iff_get (startup 1 2 3) (seed_record_3 (uuid4_str 3))
                   (reach_startup 1 2 3)) _).
  right. right. left. reflexivity.
Defined.

(** ** The constructors as a second check *)

Lemma Project_init_Project_dict_bad p :
  ~ Project_ok p -> Project_init (Project_dict p) = inl ValidationError.
Proof.
  intros Hbad. destruct (Project_init (Project_dict p)) as [[c d|]|q] eqn:E.
  - unfold Project_init in E.
    repeat match type of E with
           | context [match ?x with _ => _ end] => destruct x
           end; discriminate.
  - reflexivity.
  - exfalso. apply Hbad. apply Project_init_inr in E as ([Ht Hd] & Gt & Gd & _).
    destruct p as [t d g i].
    cbn [Project_dict Dict.get String.eqb Ascii.eqb Bool.eqb title description]
      in Gt, Gd.
    injection Gt as Gt. injection Gd as Gd.
    split; cbn [title description]; [rewrite Gt|rewrite Gd]; assumption.
Qed.

(** X10. The mutating handlers check the record they are about to store, not
    only the request layer before them.  Called with a payload object whose
    values break the bounds, [create_project] raises a validation error and
    writes nothing; [update_project], when the merged record breaks the
    bounds, does the same. *)
Theorem handlers_revalidate (s : store) :
  (forall rnd payload,
     ~ (title_ok (pc_title payload) /\ description_ok (pc_description payload)) ->
     create_project rnd payload s = (inl ValidationError, s)) /\
  (forall project_id payload p,
     Dict.get project_id s = Some p ->
     ~ Project_ok (merged p payload) ->
     update_project project_id payload s = (inl ValidationError, s)).
Proof.
  split.
  - intros rnd payload Hbad. unfold create_project, bind, lift, modify, ret.
    destruct (Project_init _) as [[c d|]|q] eqn:E.
    + unfold Project_init in E.
      repeat match type of E with
             | context [match ?x with _ => _ end] => destruct x
             end; discriminate.
    + reflexivity.
    + exfalso. apply Hbad.
      apply Project_init_inr in E as ([Ht Hd] & Gt & Gd & _).
      cbn [ProjectCreate_dict Dict.get String.eqb Ascii.eqb Bool.eqb] in Gt, Gd.
      injection Gt as Gt. injection Gd as Gd.
      split; [rewrite Gt|rewrite Gd]; assumption.
  - intros pid payload p Hg Hbad.
    rewrite (update_project_found _ _ _ _ Hg).
    now rewrite (Project_init_Project_dict_bad _ Hbad).
Qed.

Lemma handlers_revalidate_witness :
  update_project (uuid4_str 1) (mkProjectUpdate (Some "") None None ["title"])
    (startup 1 2 3)
  = (inl ValidationError, startup 1 2 3).
Proof.
  refine (proj2 (handlers_revalidate (startup 1 2 3)) (uuid4_str 1)
            (mkProjectUpdate (Some "") None None ["title"])
            (seed_record_1 (uuid4_str 1)) eq_refl _).
  intros [Ht _]. unfold title_ok in Ht. simpl in Ht. lia.
Defined.

(** X11. Rebuilding a model from its own [dict()] gives the model back: for
    every [Project] the constructor returned, [Project] applied to its
    [dict()] returns that same record, and likewise for [ProjectCreate]. *)
Theorem model_dict_round_trip :
  (forall kw p, Project_init kw = inr p -> Project_init (Project_dict p) = inr p) /\
  (forall json payload,
     ProjectCreate_init json = inr payload ->
     ProjectCreate_init (ProjectCreate_dict payload) = inr payload).
Proof.
  split.
  - intros kw p H. apply Project_init_inr in H as (Hok & _).
    now apply Project_init_Project_dict.
  - intros json payload H. apply ProjectCreate_init_inr in H as (Ht & Hd & _).
    destruct payload as [t d g].
    unfold ProjectCreate_init, ProjectCreate_dict, required, with_default.
    cbn [Dict.get String.eqb Ascii.eqb Bool.eqb pc_title pc_description pc_tags] in *.
    now rewrite (str_field_VStr _ _ _ Ht), (str_field_VStr _ _ _ Hd).
Qed.

Lemma model_dict_round_trip_witness :
  ProjectCreate_init (ProjectCreate_dict (mkProjectCreate "X" "Y" []))
  = inr (mkProjectCreate "X" "Y" []).
Proof.
  exact (proj2 model_dict_round_trip
           [("description", VStr "Y"); ("title", VStr "X")]
           (mkProjectCreate "X" "Y" []) eq_refl).
Defined.

(** ** Identifiers in the store *)

Lemma generated_set rnd p s :
  Forall generated_key s -> Forall generated_key (Dict.set (uuid4_str rnd) p s).
Proof. intros H. apply Forall_set; [exact H|]. now exists rnd. Qed.

Lemma generated_seed r1 r2 r3 s :
  Forall generated_key s -> Forall generated_key (snd (seed_data r1 r2 r3 s)).
Proof.
  intros H. destruct s as [|e s].
  - rewrite seed_data_empty. cbn [snd].
    repeat apply generated_set.
    constructor; [now exists r1|constructor].
  - now rewrite seed_data_nonempty.
Qed.

Lemma generated_create rnd payload s :
  Forall generated_key s ->
  Forall generated_key (snd (create_project rnd payload s)).
Proof.
  intros H. unfold create_project, bind, lift, modify, ret.
  destruct (Project_init _) as [e|p]; cbn [snd]; [exact H|].
  now apply generated_set.
Qed.

Lemma generated_update pid payload s :
  Forall generated_key s ->
  Forall generated_key (snd (update_project pid payload s)).
Proof.
  intros H. destruct (Dict.get pid s) as [p|] eqn:G.
  - rewrite (update_project_found _ _ _ _ G).
    destruct (Project_init _) as [e|u]; cbn [snd]; [exact H|].
    apply Forall_set; [exact H|].
    rewrite Forall_forall in H. exact (H _ (get_In _ _ _ G)).
  - now rewrite update_project_missing.
Qed.

Lemma generated_delete pid s :
  Forall generated_key s ->
  Forall generated_key (snd (delete_project pid s)).
Proof.
  intros H. destruct (Dict.get pid s) as [p|] eqn:G.
  - rewrite (delete_project_found _ _ _ G). now apply Forall_del.
  - now rewrite delete_project_missing.
Qed.

Lemma generated_serve req s :
  Forall generated_key s -> Forall generated_key (snd (serve req s)).
Proof.
  intros H. destruct req as [| | |rnd json|pid|pid json|pid json|pid];
    cbn [serve];
    try destruct (ProjectCreate_init json);
    try destruct (ProjectUpdate_init json);
    try exact H; rewrite snd_respond;
    auto using generated_create, generated_update, generated_delete.
  destruct (Dict.get pid s) eqn:G.
  - now rewrite (get_project_found _ _ _ G).
  - now rewrite get_project_missing.
Qed.

(** X12. Clients never choose an id.  In every reachable store each key, and
    so each record's id, is a string that [uuid4] produced: 36 characters
    long, never empty.  No request or handler call stores a record under any
    other key. *)
Theorem stored_ids_generated (s : store) :
  reachable s ->
  forall k p, In (k, p) s ->
    (exists rnd, k = uuid4_str rnd) /\
    id p = k /\ String.length (id p) = 36%nat /\ id p <> "".
Proof.
  intros Hr k p Hin.
  assert (Hgen : Forall generated_key s).
  { clear k p Hin.
    induction Hr as [r1 r2 r3|s req _ IH|s r1 r2 r3 _ IH|s rnd payload _ IH
                    |s pid payload _ IH|s pid _ IH].
    - apply generated_seed. constructor.
    - now apply generated_serve.
    - now apply generated_seed.
    - now apply generated_create.
    - now apply generated_update.
    - now apply generated_delete. }
  rewrite Forall_forall in Hgen. destruct (Hgen _ Hin) as [rnd Hk].
  simpl in Hk. subst k.
  destruct (reachable_inv _ Hr) as [_ Hall]. rewrite Forall_forall in Hall.
  destruct (Hall _ Hin) as [Hid _]. simpl in Hid.
  split; [now exists rnd|]. split; [exact Hid|]. rewrite Hid.
  split; [apply uuid4_str_length|apply uuid4_str_nonempty].
Qed.

Lemma stored_ids_generated_witness :
  let s := snd (serve (POST_projects 9
                         [("title", VStr "X"); ("description", VStr "Y");
                          ("id", VStr "mine")])
                  (startup 1 2 3)) in
  let p := mkProject "X" "Y" [] (uuid4_str 9) in
  In (uuid4_str 9, p) s /\ id p = uuid4_str 9 /\ String.length (id p) = 36%nat.
Proof.
  intros s p.
  assert (Hin : In (uuid4_str 9, p) s) by (right; right; right; left; reflexivity).
  split; [exact Hin|].
  destruct (stored_ids_generated s (reach_serve _ _ (reach_startup 1 2 3)) _ _ Hin)
    as (_ & Hid & Hlen & _).
  split; [exact Hid|exact Hlen].
Defined.

(** ** How operations compose *)

(** X13. Updates of two different projects do not interfere: whatever the
    two payloads, running the two [update_project] calls in either order
    leaves the same store, and each call returns in the second position
    what it returns in the first. *)
Theorem updates_commute (s : store) (id1 id2 : string)
    (payload1 payload2 : ProjectUpdate) :
  id1 <> id2 ->
  let s1 := snd (update_project id1 payload1 s) in
  let s2 := snd (update_project id2 payload2 s) in
  snd (update_project id2 payload2 s1) = snd (update_project id1 payload1 s2) /\
  fst (update_project id2 payload2 s1) = fst (update_project id2 payload2 s) /\
  fst (update_project id1 payload1 s2) = fst (update_project id1 payload1 s).
Proof.
  intros Hne s1 s2.
  assert (G21 : Dict.get id2 s1 = Dict.get id2 s).
  { unfold s1. destruct (Dict.get id1 s) as [p|] eqn:G.
    - rewrite (update_project_found _ _ _ _ G).
      destruct (Project_init _); cbn [snd]; [reflexivity|].
      now apply get_set_ne.
    - now rewrite update_project_missing. }
  assert (G12 : Dict.get id1 s2 = Dict.get id1 s).
  { unfold s2. destruct (Dict.get id2 s) as [p|] eqn:G.
    - rewrite (update_project_found _ _ _ _ G).
      destruct (Project_init _); cbn [snd]; [reflexivity|].
      apply get_set_ne. congruence.
    - now rewrite update_project_missing. }
  destruct (Dict.get id1 s) as [p1|] eqn:G1, (Dict.get id2 s) as [p2|] eqn:G2.
  - rewrite (update_project_found _ _ _ _ G21), (update_project_found _ _ _ _ G12).
    rewrite (update_project_found _ _ _ s G1), (update_project_found _ _ _ s G2).
    unfold s1, s2.
    rewrite (update_project_found _ _ _ s G1), (update_project_found _ _ _ s G2).
    destruct (Project_init (Project_dict (merged p1 payload1))) as [e1|u1],
             (Project_init (Project_dict (merged p2 payload2))) as [e2|u2];
      cbn [fst snd]; repeat split.
    symmetry. apply set_set_comm; [exact Hne|].
    left. unfold Dict.mem. now rewrite G1.
  - rewrite (update_project_missing _ _ _ G21), (update_project_found _ _ _ _ G12).
    rewrite (update_project_found _ _ _ s G1), (update_project_missing _ _ s G2).
    unfold s1, s2.
    rewrite (update_project_found _ _ _ s G1), (update_project_missing _ _ s G2).
    destruct (Project_init _); cbn [fst snd]; repeat split.
  - rewrite (update_project_found _ _ _ _ G21), (update_project_missing _ _ _ G12).
    rewrite (update_project_missing _ _ s G1), (update_project_found _ _ _ s G2).
    unfold s1, s2.
    rewrite (update_project_missing _ _ s G1), (update_project_found _ _ _ s G2).
    destruct (Project_init _); cbn [fst snd]; repeat split.
  - rewrite (update_project_missing _ _ _ G21), (update_project_missing _ _ _ G12).
    rewrite (update_project_missing _ _ s G1), (update_project_missing _ _ s G2).
    unfold s1, s2.
    rewrite (update_project_missing _ _ s G1), (update_project_missing _ _ s G2).
    repeat split.
Qed.

Lemma updates_commute_witness :
  snd (update_project (uuid4_str 2) (mkProjectUpdate None (Some "D") None ["description"])
         (snd (update_project (uuid4_str 1)
                 (mkProjectUpdate (Some "T") None None ["title"]) (startup 1 2 3))))
  = snd (update_project (uuid4_str 1) (mkProjectUpdate (Some "T") None None ["title"])
           (snd (update_project (uuid4_str 2)
                   (mkProjectUpdate None (Some "D") None ["description"])
                   (startup 1 2 3)))).
Proof.
  refine (proj1 (updates_commute (startup 1 2 3) (uuid4_str 1) (uuid4_str 2)
                   (mkProjectUpdate (Some "T") None None ["title"])
                   (mkProjectUpdate None (Some "D") None ["description"]) _)).
  discriminate.
Defined.

Lemma del_set (k : string) (p : Project) (s : store) :
  Dict.del k (Dict.set k p s) = Dict.del k s.
Proof.
  induction s as [|[k0 v0] s IH]; simpl.
  - now rewrite String.eqb_refl.
  - destruct (String.eqb k k0) eqn:E; simpl; rewrite E; [reflexivity|].
    now rewrite IH.
Qed.

(** X14. Creating a project and then deleting the returned id undoes the
    creation: the DELETE is answered 204 and, when the generated id was not
    already a key, the store is exactly the one before the POST.  (When the
    id was already a key, the record that was stored under it is gone too.) *)
Theorem create_then_delete (s : store) (rnd : N) (json : kwargs)
    (payload : ProjectCreate) :
  ProjectCreate_init json = inr payload ->
  let project_id := uuid4_str rnd in
  let s1 := snd (serve (POST_projects rnd json) s) in
  serve (DELETE_project project_id) s1
    = (mkResponse 204 CEmpty, Dict.del project_id s) /\
  (Dict.get project_id s = None ->
   snd (serve (DELETE_project project_id) s1) = s) /\
  Dict.get project_id (snd (serve (DELETE_project project_id) s1)) = None.
Proof.
  intros Hv pid s1.
  destruct (ProjectCreate_init_inr _ _ Hv) as (Ht & Hd & _).
  assert (E1 : s1 = Dict.set pid
                      (mkProject (pc_title payload) (pc_description payload)
                         (pc_tags payload) pid) s).
  { unfold s1. cbn [serve]. rewrite Hv, snd_respond.
    now rewrite (create_project_valid _ _ _ Ht Hd). }
  assert (E2 : serve (DELETE_project pid) s1
               = (mkResponse 204 CEmpty, Dict.del pid s)).
  { cbn [serve]. unfold respond. rewrite E1.
    rewrite (delete_project_found _ _ _ (get_set_eq _ _ _)).
    now rewrite del_set. }
  split; [exact E2|]. rewrite E2. cbn [snd]. split.
  - apply del_absent.
  - apply get_del_eq.
Qed.

Lemma create_then_delete_witness :
  snd (serve (DELETE_project (uuid4_str 8))
         (snd (serve (POST_projects 8 [("title", VStr "X"); ("description", VStr "Y")])
                 (startup 1 2 3))))
  = startup 1 2 3.
Proof.
  exact (proj1 (proj2
    (create_then_delete (startup 1 2 3) 8
       [("title", VStr "X"); ("description", VStr "Y")]
       (mkProjectCreate "X" "Y" []) eq_refl)) eq_refl).
Defined.

(** ** The shape of a generated identifier *)

Lemma nibble_version rnd : N.land (N.shiftr (UUID_int rnd 4) 76) 15 = 4%N.
Proof.
  unfold UUID_int. cbv zeta.
  rewrite N.shiftr_lor, !N.shiftr_ldiff, N.shiftr_lor, N.shiftr_ldiff.
  change (N.shiftr (N.shiftl 4 76) 76) with 4%N.
  change (N.shiftr (N.shiftl 61440 64) 76) with 15%N.
  change (N.shiftr (N.shiftl 32768 48) 76) with 0%N.
  change (N.shiftr (N.shiftl 49152 48) 76) with 0%N.
  apply N.bits_inj. intros n.
  rewrite N.land_spec, N.lor_spec, !N.ldiff_spec, N.lor_spec, N.ldiff_spec.
  rewrite N.bits_0.
  assert (H : N.testbit 4 n = N.testbit 4 n && N.testbit 15 n)
    by (rewrite <- N.land_spec; reflexivity).
  rewrite H. destruct (N.testbit 15 n), (N.testbit 4 n), (N.testbit _ n); reflexivity.
Qed.

Lemma nibble_variant rnd :
  N.land (N.shiftr (UUID_int rnd 4) 60) 15
  = N.lor (N.land (N.shiftr (rnd mod 2 ^ 128) 60) 3) 8.
Proof.
  unfold UUID_int. cbv zeta.
  rewrite N.shiftr_lor, !N.shiftr_ldiff, N.shiftr_lor, N.shiftr_ldiff.
  change (N.shiftr (N.shiftl 4 76) 60) with 262144%N.
  change (N.shiftr (N.shiftl 61440 64) 60) with 983040%N.
  change (N.shiftr (N.shiftl 32768 48) 60) with 8%N.
  change (N.shiftr (N.shiftl 49152 48) 60) with 12%N.
  generalize (N.shiftr (rnd mod 2 ^ 128) 60). intros y.
  apply N.bits_inj. intros n.
  rewrite !N.land_spec, !N.lor_spec, !N.ldiff_spec, N.lor_spec, N.ldiff_spec,
    N.land_spec.
  destruct (N.lt_ge_cases n 4) as [Hlt|Hge].
  - assert (Hn : (n = 0 \/ n = 1 \/ n = 2 \/ n = 3)%N) by lia.
    destruct Hn as [ -> | [ -> | [ -> | -> ]]];
      match goal with
      | |- context [N.testbit y ?k] => destruct (N.testbit y k)
      end; reflexivity.
  - rewrite (N.bits_above_log2 15 n), (N.bits_above_log2 3 n),
      (N.bits_above_log2 8 n) by (cbn; lia).
    now rewrite !andb_false_r.
Qed.

(** X15. Every generated identifier has the canonical form of a random
    (version 4) UUID: 36 characters, hyphens at positions 8, 13, 18 and 23,
    the version digit [4] at position 14, and one of [8], [9], [a], [b] at
    position 19, whatever random bytes were drawn. *)
Theorem uuid4_str_canonical (rnd : N) :
  String.length (uuid4_str rnd) = 36%nat /\
  String.get 8 (uuid4_str rnd) = Some "-"%char /\
  String.get 13 (uuid4_str rnd) = Some "-"%char /\
  String.get 18 (uuid4_str rnd) = Some "-"%char /\
  String.get 23 (uuid4_str rnd) = Some "-"%char /\
  String.get 14 (uuid4_str rnd) = Some "4"%char /\
  In (String.get 19 (uuid4_str rnd))
     [Some "8"%char; Some "9"%char; Some "a"%char; Some "b"%char].
Proof.
  repeat (split; [reflexivity|]).
  split.
  - cbv [uuid4_str UUID_str hex32].
    cbn [seq rev app map string_of_list_ascii substring append String.get
         N.of_nat Pos.of_succ_nat Pos.succ N.mul Pos.mul Pos.add].
    rewrite nibble_version. reflexivity.
  - cbv [uuid4_str UUID_str hex32].
    cbn [seq rev app map string_of_list_ascii substring append String.get
         N.of_nat Pos.of_succ_nat Pos.succ N.mul Pos.mul Pos.add].
    rewrite nibble_variant.
    change 3%N with (N.ones 2). rewrite N.land_ones.
    pose proof (N.mod_upper_bound (N.shiftr (rnd mod 2 ^ 128) 60) (2 ^ 2)) as Hb.
    specialize (Hb ltac:(discriminate)).
    set (lo := (N.shiftr (rnd mod 2 ^ 128) 60 mod 2 ^ 2)%N) in *.
    assert (Hlo : (lo = 0 \/ lo = 1 \/ lo = 2 \/ lo = 3)%N)
      by (change (2 ^ 2)%N with 4%N in Hb; lia).
    destruct Hlo as [ -> | [ -> | [ -> | -> ]]]; cbn; tauto.
Qed.
